(** * Obsidian Vault Linter: the normalization pipeline and its report

    A shallow embedding of the text-to-text rule modules
    (frontmatter, formatting, tags, wikilinks), of the pipeline that
    sequences them and of the vault report renderer, followed by the
    properties of the specification settled against them.

    A JavaScript string is a sequence of UTF-16 code units; none of the
    regular expressions of the program carries the [u] flag, so every
    pattern works on code units.  Strings are therefore lists of code
    units, a code unit being a number. *)

From Stdlib Require Import List NArith Arith Bool Lia.
From Stdlib Require Import Sorting.Sorted Sorting.Permutation.
From Stdlib Require Strings.String Strings.Ascii.
Import String.StringSyntax.
Import ListNotations.

(* ===================================================================== *)
(** ** Strings of the host language *)
(* ===================================================================== *)

Module Js.

Abbreviation char := N (only parsing).
Abbreviation str := (list N) (only parsing).

(** String literals: every character of the literal is its code unit. *)
Definition u (s : String.string) : str :=
  map Ascii.N_of_ascii (String.list_ascii_of_string s).
Arguments u s%_string_scope.

Definition LF : char := 10%N.
Definition CR : char := 13%N.
Definition SPACE : char := 32%N.
Definition HASH : char := 35%N.
Definition DOLLAR : char := 36%N.
Definition AMP : char := 38%N.
Definition QUOTE : char := 39%N.
Definition HYPHEN : char := 45%N.
Definition SLASH : char := 47%N.
Definition LBRACKET : char := 91%N.
Definition RBRACKET : char := 93%N.
Definition UNDERSCORE : char := 95%N.
Definition BACKTICK : char := 96%N.
Definition PIPE : char := 124%N.
Definition UPPER_T : char := 84%N.

Definition inRange (lo hi c : char) : bool :=
  (N.leb lo c && N.leb c hi)%bool.

(** [\s] of the regular expressions and the characters removed by
    [trim], [trimStart]: WhiteSpace and LineTerminator of the language. *)
Definition isWhiteSpace (c : char) : bool :=
  (inRange 9%N 13%N c
   || N.eqb c 32%N || N.eqb c 160%N || N.eqb c 5760%N
   || inRange 8192%N 8202%N c
   || N.eqb c 8232%N || N.eqb c 8233%N || N.eqb c 8239%N || N.eqb c 8287%N
   || N.eqb c 12288%N || N.eqb c 65279%N)%bool.

Definition isEmpty (s : str) : bool :=
  match s with [] => true | _ :: _ => false end.

Fixpoint str_eqb (a b : str) : bool :=
  match a, b with
  | [], [] => true
  | x :: a', y :: b' => (N.eqb x y && str_eqb a' b')%bool
  | _, _ => false
  end.

Fixpoint takeWhile (p : char -> bool) (s : str) : str :=
  match s with
  | [] => []
  | c :: t => if p c then c :: takeWhile p t else []
  end.

Fixpoint dropWhile (p : char -> bool) (s : str) : str :=
  match s with
  | [] => []
  | c :: t => if p c then dropWhile p t else s
  end.

(** [s.startsWith(p)] *)
Fixpoint startsWith (p s : str) : bool :=
  match p, s with
  | [], _ => true
  | _ :: _, [] => false
  | x :: p', y :: s' => (N.eqb x y && startsWith p' s')%bool
  end.

(** [s.endsWith(p)] *)
Definition endsWith (p s : str) : bool :=
  startsWith (rev p) (rev s).

(** [s.trimStart()], [s.trimEnd()], [s.trim()] *)
Definition trimStart (s : str) : str := dropWhile isWhiteSpace s.
Definition trimEnd (s : str) : str := rev (dropWhile isWhiteSpace (rev s)).
Definition trim (s : str) : str := trimEnd (trimStart s).

(** [s.slice(n)] and [s.slice(0, n)] for [0 <= n] *)
Definition sliceFrom (n : nat) (s : str) : str := skipn n s.
Definition sliceTo (n : nat) (s : str) : str := firstn n s.

(** [s.indexOf(p)]: [None] stands for -1. *)
Fixpoint indexOf (p s : str) : option nat :=
  if startsWith p s then Some 0
  else match s with
       | [] => None
       | _ :: t => option_map S (indexOf p t)
       end.

(** [s.split(sep)] for a separator given as a set of single code
    units: a one-character string, or a character class without
    capture groups.  The result is never empty. *)
Fixpoint splitBy (sep : char -> bool) (s : str) : list str :=
  match s with
  | [] => [[]]
  | c :: t =>
      if sep c then [] :: splitBy sep t
      else match splitBy sep t with
           | seg :: segs => (c :: seg) :: segs
           | [] => [[c]]
           end
  end.

Definition split (sep : char) (s : str) : list str :=
  splitBy (N.eqb sep) s.

(** [parts.join('')] *)
Definition join (parts : list str) : str := concat parts.

(** The text a replacement string stands for (GetSubstitution) when the
    pattern has no capture group: [$$] is a dollar sign, [$&] the match,
    [$`] the text before it, [$'] the text after it; a dollar sign
    followed by anything else stands for itself. *)
Fixpoint getSubstitution (matched before after repl : str) : str :=
  match repl with
  | [] => []
  | d :: tl =>
      match tl with
      | [] => [d]
      | c :: r =>
          if N.eqb d DOLLAR then
            if N.eqb c DOLLAR then DOLLAR :: getSubstitution matched before after r
            else if N.eqb c AMP then matched ++ getSubstitution matched before after r
            else if N.eqb c BACKTICK then before ++ getSubstitution matched before after r
            else if N.eqb c QUOTE then after ++ getSubstitution matched before after r
            else d :: getSubstitution matched before after tl
          else d :: getSubstitution matched before after tl
      end
  end.

(** [s.replace(re, ...)] with a global pattern that never matches the
    empty string.  [matchAt pre s] tells whether the pattern matches at
    the position that splits the subject into [rev pre] and [s], and if
    so gives the length of the match and the text that replaces it.
    The scan goes left to right; after a match it resumes behind it. *)
Section Replace.
Variable matchAt : str -> str -> option (nat * str).

Fixpoint replaceFrom (pre : str) (skip : nat) (s : str) : str :=
  match s with
  | [] => []
  | c :: t =>
      match skip with
      | S k => replaceFrom (c :: pre) k t
      | O =>
          match matchAt pre s with
          | Some (len, out) => out ++ replaceFrom (c :: pre) (len - 1) t
          | None => c :: replaceFrom (c :: pre) 0 t
          end
      end
  end.

Definition replaceAll (s : str) : str := replaceFrom [] 0 s.
End Replace.

(** [s.replace(/lit/g, repl)] for a literal, non-empty pattern and a
    replacement string. *)
Definition replaceLiteral (lit repl : str) (s : str) : str :=
  replaceAll
    (fun pre s' =>
       if startsWith lit s'
       then Some (length lit,
                  getSubstitution lit (rev pre) (skipn (length lit) s') repl)
       else None)
    s.

(** [s.replace(/\.md$/, '')] *)
Definition stripMd (s : str) : str :=
  if endsWith (u ".md") s then firstn (length s - 3) s else s.

(** Decimal rendering of a length, as template literals do. *)
Fixpoint digits (d : Decimal.uint) : str :=
  match d with
  | Decimal.Nil => []
  | Decimal.D0 r => 48%N :: digits r
  | Decimal.D1 r => 49%N :: digits r
  | Decimal.D2 r => 50%N :: digits r
  | Decimal.D3 r => 51%N :: digits r
  | Decimal.D4 r => 52%N :: digits r
  | Decimal.D5 r => 53%N :: digits r
  | Decimal.D6 r => 54%N :: digits r
  | Decimal.D7 r => 55%N :: digits r
  | Decimal.D8 r => 56%N :: digits r
  | Decimal.D9 r => 57%N :: digits r
  end.

Definition decimal (n : nat) : str := digits (Nat.to_uint n).

(** Case conversion is the runtime's (it follows the Unicode tables);
    the program is modelled over any provider of it. *)
Class CaseConv := {
  toLowerCase : str -> str;
  toUpperCase : str -> str
}.

(** The conversion restricted to the letters A-Z and a-z; it agrees
    with the runtime on every string of ASCII characters. *)
Definition lowerChar (c : char) : char :=
  if inRange 65%N 90%N c then (c + 32)%N else c.
Definition upperChar (c : char) : char :=
  if inRange 97%N 122%N c then (c - 32)%N else c.

Definition AsciiCase : CaseConv :=
  {| toLowerCase := map lowerChar; toUpperCase := map upperChar |}.

End Js.

Import Js.

(* ===================================================================== *)
(** ** settings.ts *)
(* ===================================================================== *)

Inductive TagFormat := lowercase | uppercase | camelCase | none.
Inductive WikilinkStyle := shortest | relative | absolute.

Record VaultLinterSettings := {
  enforceFrontmatter : bool;
  frontmatterTemplate : str;
  normalizeFormatting : bool;
  endWithNewline : bool;
  removeMultipleBlankLines : bool;
  enforceTagRules : bool;
  tagFormat : TagFormat;
  safeWikilinkInsertion : bool;
  wikilinkStyle : WikilinkStyle
}.

Definition DEFAULT_SETTINGS : VaultLinterSettings :=
  {| enforceFrontmatter := true;
     frontmatterTemplate :=
       u "---" ++ [LF] ++ u "title: {{title}}" ++ [LF]
       ++ u "date: {{date}}" ++ [LF] ++ u "tags: []" ++ [LF] ++ u "---";
     normalizeFormatting := true;
     endWithNewline := true;
     removeMultipleBlankLines := true;
     enforceTagRules := false;
     tagFormat := lowercase;
     safeWikilinkInsertion := true;
     wikilinkStyle := shortest |}.

(* ===================================================================== *)
(** ** engine/frontmatter.ts *)
(* ===================================================================== *)

Module FrontmatterEnforcer.
Section WithRuntime.
Context {rt : CaseConv}.
Variable settings : VaultLinterSettings.
(** What [new Date().toISOString()] returns when it is called. *)
Variable now : str.

Definition hasFrontmatter (content : str) : bool :=
  startsWith (u "---") (trimStart content).

Definition extractFrontmatter (content : str) : option (str * str) :=
  let trimmed := trimStart content in
  if negb (startsWith (u "---") trimmed) then None
  else
    let afterFirst := sliceFrom 3 trimmed in
    match indexOf (LF :: u "---") afterFirst with
    | None => None
    | Some endIndex =>
        Some (sliceTo endIndex afterFirst, sliceFrom (endIndex + 4) afterFirst)
    end.

Definition isIdChar (c : char) : bool :=
  (inRange 97%N 122%N c || inRange 48%N 57%N c)%bool.

Definition isHyphen (c : char) : bool := N.eqb c HYPHEN.

(** [.replace(/[^a-z0-9]+/g, '-')] *)
Definition hyphenate (s : str) : str :=
  replaceAll
    (fun _ s' =>
       let run := takeWhile (fun c => negb (isIdChar c)) s' in
       if isEmpty run then None else Some (length run, [HYPHEN]))
    s.

(** [.replace(/^-+|-+$/g, '')]: the first alternative matches a run
    of hyphens at the start of the subject, the second a run of
    hyphens that reaches its end. *)
Definition trimHyphens (s : str) : str :=
  replaceAll
    (fun pre s' =>
       let run := takeWhile isHyphen s' in
       if isEmpty run then None
       else if isEmpty pre then Some (length run, [])
       else if isEmpty (dropWhile isHyphen s') then Some (length run, [])
       else None)
    s.

Definition generateId (title : str) : str :=
  trimHyphens (hyphenate (toLowerCase title)).

(** [new Date().toISOString().split('T')[0]] *)
Definition today : str := nth 0 (split UPPER_T now) [].

Definition generateFrontmatter (fileName : str) : str :=
  if negb (enforceFrontmatter settings) then []
  else
    let date := today in
    let title := stripMd fileName in
    let id := generateId title in
    let frontmatter := frontmatterTemplate settings in
    let frontmatter := replaceLiteral (u "{{id}}") id frontmatter in
    let frontmatter := replaceLiteral (u "{{title}}") title frontmatter in
    let frontmatter := replaceLiteral (u "{{date}}") date frontmatter in
    let frontmatter :=
      if negb (startsWith (u "---") frontmatter)
      then u "---" ++ [LF] ++ frontmatter else frontmatter in
    let frontmatter :=
      if negb (endsWith (u "---") frontmatter)
      then frontmatter ++ [LF] ++ u "---" else frontmatter in
    frontmatter.

Definition enforce (content fileName : str) : str :=
  if negb (enforceFrontmatter settings) then content
  else if hasFrontmatter content then content
  else
    let frontmatter := generateFrontmatter fileName in
    frontmatter ++ [LF; LF] ++ content.
End WithRuntime.
End FrontmatterEnforcer.

(* ===================================================================== *)
(** ** The formatting normalizer *)
(* ===================================================================== *)

Module FormattingNormalizer.
Section WithSettings.
Variable settings : VaultLinterSettings.

Definition isLF (c : char) : bool := N.eqb c LF.

(** [content.replace(/\n{3,}/g, '\n\n')] *)
Definition removeMultipleBlankLines (content : str) : str :=
  if negb (removeMultipleBlankLines settings) then content
  else
    replaceAll
      (fun _ s' =>
         let run := takeWhile isLF s' in
         if 3 <=? length run then Some (length run, [LF; LF]) else None)
      content.

(** [content.replace(/\s+$/, '') + '\n'] *)
Definition ensureTrailingNewline (content : str) : str :=
  if negb (endWithNewline settings) then content
  else rev (dropWhile isWhiteSpace (rev content)) ++ [LF].

(** [content.replace(/\r\n/g, '\n')] *)
Definition normalizeLineEndings (content : str) : str :=
  replaceAll
    (fun _ s' => if startsWith [CR; LF] s' then Some (2, [LF]) else None)
    content.

Definition normalize (content : str) : str :=
  if negb (normalizeFormatting settings) then content
  else
    let normalized := content in
    let normalized := normalizeLineEndings normalized in
    let normalized := removeMultipleBlankLines normalized in
    let normalized := ensureTrailingNewline normalized in
    normalized.
End WithSettings.
End FormattingNormalizer.

(* ===================================================================== *)
(** ** The tag rules *)
(* ===================================================================== *)

Module TagRules.
Section WithRuntime.
Context {rt : CaseConv}.
Variable settings : VaultLinterSettings.

(** The class [[a-zA-Z0-9_\-\/]] *)
Definition isTagChar (c : char) : bool :=
  (inRange 97%N 122%N c || inRange 65%N 90%N c || inRange 48%N 57%N c
   || N.eqb c UNDERSCORE || N.eqb c HYPHEN || N.eqb c SLASH)%bool.

(** The class [[_\-\/]] *)
Definition isTagSeparator (c : char) : bool :=
  (N.eqb c UNDERSCORE || N.eqb c HYPHEN || N.eqb c SLASH)%bool.

(** The pattern [/#([a-zA-Z0-9_\-\/]+)/] at one position: the
    captured token and the length of the match. *)
Definition matchTag (s : str) : option (str * nat) :=
  match s with
  | c :: t =>
      if N.eqb c HASH then
        let tag := takeWhile isTagChar t in
        if isEmpty tag then None else Some (tag, 1 + length tag)
      else None
  | [] => None
  end.

Fixpoint extractTagsFrom (skip : nat) (content : str) : list str :=
  match content with
  | [] => []
  | _ :: t =>
      match skip with
      | S k => extractTagsFrom k t
      | O =>
          match matchTag content with
          | Some (tag, len) => tag :: extractTagsFrom (len - 1) t
          | None => extractTagsFrom 0 t
          end
      end
  end.

Definition extractTags (content : str) : list str :=
  extractTagsFrom 0 content.

Fixpoint mapi_from {A B} (f : A -> nat -> B) (index : nat) (l : list A) : list B :=
  match l with
  | [] => []
  | x :: r => f x index :: mapi_from f (S index) r
  end.

Definition normalizeTag (tag : str) : str :=
  if negb (enforceTagRules settings) then tag
  else
    match tagFormat settings with
    | lowercase => toLowerCase tag
    | uppercase => toUpperCase tag
    | camelCase =>
        join
          (mapi_from
             (fun word index =>
                if index =? 0 then toLowerCase word
                else toUpperCase (firstn 1 word) ++ toLowerCase (skipn 1 word))
             0 (splitBy isTagSeparator tag))
    | none => tag
    end.

Definition enforce (content : str) : str :=
  if negb (enforceTagRules settings) then content
  else
    replaceAll
      (fun _ s' =>
         match matchTag s' with
         | Some (tag, len) => Some (len, HASH :: normalizeTag tag)
         | None => None
         end)
      content.
End WithRuntime.
End TagRules.

(* ===================================================================== *)
(** ** The wikilink inserter *)
(* ===================================================================== *)

Module WikilinkInserter.
Section WithSettings.
Variable settings : VaultLinterSettings.

Definition notRBracket (c : char) : bool := negb (N.eqb c RBRACKET).

(** The pattern [/\[\[([^\]]+)\]\]/] at one position: the captured
    inner text and the length of the match.  The class takes every
    character up to the next closing bracket; giving some of them
    back never helps, the pattern wanting a closing bracket next. *)
Definition matchWikilink (s : str) : option (str * nat) :=
  match s with
  | c1 :: c2 :: t =>
      if (N.eqb c1 LBRACKET && N.eqb c2 LBRACKET)%bool then
        let inner := takeWhile notRBracket t in
        if isEmpty inner then None
        else if startsWith [RBRACKET; RBRACKET] (dropWhile notRBracket t)
             then Some (inner, length inner + 4)
             else None
      else None
  | _ => None
  end.

Fixpoint extractWikilinksFrom (skip : nat) (content : str) : list str :=
  match content with
  | [] => []
  | _ :: t =>
      match skip with
      | S k => extractWikilinksFrom k t
      | O =>
          match matchWikilink content with
          | Some (inner, len) => inner :: extractWikilinksFrom (len - 1) t
          | None => extractWikilinksFrom 0 t
          end
      end
  end.

Definition extractWikilinks (content : str) : list str :=
  extractWikilinksFrom 0 content.

Definition normalizeWikilinkPath (path : str) : str :=
  if negb (safeWikilinkInsertion settings) then path
  else
    let parts := split PIPE path in
    let linkPath := trim (nth 0 parts []) in
    let alias :=
      if 1 <? length parts then Some (trim (nth 1 parts [])) else None in
    let linkPath :=
      match wikilinkStyle settings with
      | shortest =>
          let linkPath :=
            let popped := last (split SLASH linkPath) [] in
            if isEmpty popped then linkPath else popped in
          stripMd linkPath
      | relative => linkPath
      | absolute => linkPath
      end in
    match alias with
    | Some (c :: a) => linkPath ++ [PIPE] ++ (c :: a)
    | _ => linkPath
    end.

Definition normalize (content : str) : str :=
  if negb (safeWikilinkInsertion settings) then content
  else
    replaceAll
      (fun _ s' =>
         match matchWikilink s' with
         | Some (path, len) =>
             Some (len, u "[[" ++ normalizeWikilinkPath path ++ u "]]")
         | None => None
         end)
      content.
End WithSettings.
End WikilinkInserter.

(* ===================================================================== *)
(** ** engine/normalize.ts *)
(* ===================================================================== *)

Module NormalizationPipeline.
Section WithRuntime.
Context {rt : CaseConv}.
Variable settings : VaultLinterSettings.
Variable now : str.

Definition normalize (content fileName : str) : str :=
  let normalized := content in
  let normalized := FrontmatterEnforcer.enforce settings now normalized fileName in
  let normalized := FormattingNormalizer.normalize settings normalized in
  let normalized := TagRules.enforce settings normalized in
  let normalized := WikilinkInserter.normalize settings normalized in
  normalized.
End WithRuntime.
End NormalizationPipeline.

(* ===================================================================== *)
(** ** The report renderer *)
(* ===================================================================== *)

Module Report.

Inductive ChangeType :=
| frontmatter_added
| frontmatter_normalized
| formatting_normalized
| tags_normalized
| wikilinks_normalized.

Definition typeName (t : ChangeType) : str :=
  match t with
  | frontmatter_added => u "frontmatter-added"
  | frontmatter_normalized => u "frontmatter-normalized"
  | formatting_normalized => u "formatting-normalized"
  | tags_normalized => u "tags-normalized"
  | wikilinks_normalized => u "wikilinks-normalized"
  end.

Definition ChangeType_eqb (a b : ChangeType) : bool :=
  match a, b with
  | frontmatter_added, frontmatter_added
  | frontmatter_normalized, frontmatter_normalized
  | formatting_normalized, formatting_normalized
  | tags_normalized, tags_normalized
  | wikilinks_normalized, wikilinks_normalized => true
  | _, _ => false
  end.

Record Change := {
  type : ChangeType;
  description : str;
  lineNumber : option nat
}.

Record ChangeReport := {
  filePath : str;
  fileName : str;
  changes : list Change;
  originalContent : str;
  normalizedContent : str
}.

(** The [Map<string, number>] of the tally: the keys in the order of
    their first insertion. *)
Definition TypeMap := list (ChangeType * nat).

Fixpoint mapGet (m : TypeMap) (k : ChangeType) : option nat :=
  match m with
  | [] => None
  | (k', v) :: r => if ChangeType_eqb k k' then Some v else mapGet r k
  end.

Fixpoint mapSet (m : TypeMap) (k : ChangeType) (v : nat) : TypeMap :=
  match m with
  | [] => [(k, v)]
  | (k', v') :: r =>
      if ChangeType_eqb k k' then (k, v) :: r else (k', v') :: mapSet r k v
  end.

(** Order of strings by code units, as the default [sort] compares. *)
Fixpoint str_leb (a b : str) : bool :=
  match a, b with
  | [], _ => true
  | _ :: _, [] => false
  | x :: a', y :: b' =>
      if N.ltb x y then true
      else if N.eqb x y then str_leb a' b' else false
  end.

(** What an entry [[type, count]] converts to when [sort] compares it. *)
Definition entryString (e : ChangeType * nat) : str :=
  typeName (fst e) ++ u "," ++ decimal (snd e).

Fixpoint insertSorted (e : ChangeType * nat) (l : TypeMap) : TypeMap :=
  match l with
  | [] => [e]
  | e' :: r =>
      if str_leb (entryString e) (entryString e') then e :: l
      else e' :: insertSorted e r
  end.

Definition sortEntries (m : TypeMap) : TypeMap :=
  fold_right insertSorted [] m.

Definition isChanged (r : ChangeReport) : bool := 0 <? length (changes r).
Definition isUnchanged (r : ChangeReport) : bool := length (changes r) =? 0.

(** The tally loop over the changed files. *)
Definition countChangeTypes (changedFiles : list ChangeReport) : TypeMap :=
  fold_left
    (fun m report =>
       fold_left
         (fun m change =>
            mapSet m (type change)
                   (match mapGet m (type change) with
                    | Some n => n | None => 0 end + 1))
         (changes report) m)
    changedFiles [].

(** The body of the loop over the unchanged files. *)
Definition unchangedLine (report : ChangeReport) : str :=
  u "- `" ++ filePath report ++ u "`" ++ [LF].

(** The report up to, and without, its last section: the header, the
    counts, the tally and the details of the changed files.
    [timestamp] is what [new Date().toISOString()] returns. *)
Definition vaultReportHead
           (timestamp : str) (reports : list ChangeReport) : str :=
  let markdown := u "# Vault Linting Report" ++ [LF; LF] in
  let markdown := markdown ++ u "**Generated**: " ++ timestamp ++ [LF] in
  let markdown :=
    markdown ++ u "**Total Files Processed**: "
             ++ decimal (length reports) ++ [LF; LF] in
  let changedFiles := filter isChanged reports in
  let unchangedFiles := filter isUnchanged reports in
  let markdown :=
    markdown ++ u "**Files with Changes**: "
             ++ decimal (length changedFiles) ++ [LF] in
  let markdown :=
    markdown ++ u "**Files Already Conforming**: "
             ++ decimal (length unchangedFiles) ++ [LF; LF] in
  if 0 <? length changedFiles then
    let markdown := markdown ++ u "## Summary of Changes" ++ [LF; LF] in
    let changeTypes := countChangeTypes changedFiles in
    let markdown :=
      fold_left
        (fun md e =>
           md ++ u "- **" ++ typeName (fst e) ++ u "**: "
              ++ decimal (snd e) ++ u " file(s)" ++ [LF])
        (sortEntries changeTypes) markdown in
    let markdown := markdown ++ [LF] ++ u "## Files Modified" ++ [LF; LF] in
    fold_left
      (fun md report =>
         let md := md ++ u "### " ++ fileName report ++ [LF; LF] in
         let md := md ++ u "**Path**: `" ++ filePath report ++ u "`" ++ [LF; LF] in
         let md := md ++ u "**Changes**:" ++ [LF] in
         let md :=
           fold_left
             (fun md change => md ++ u "- " ++ description change ++ [LF])
             (changes report) md in
         md ++ [LF])
      changedFiles markdown
  else markdown.

(** The whole report: the last section lists the unchanged files. *)
Definition formatVaultReportAsMarkdown
           (timestamp : str) (reports : list ChangeReport) : str :=
  let markdown := vaultReportHead timestamp reports in
  let unchangedFiles := filter isUnchanged reports in
  if ((0 <? length unchangedFiles) && (length unchangedFiles <=? 20))%bool then
    let markdown := markdown ++ u "## Files Already Conforming" ++ [LF; LF] in
    let markdown :=
      fold_left (fun md report => md ++ unchangedLine report)
                unchangedFiles markdown in
    markdown ++ [LF]
  else markdown.

End Report.

(* ===================================================================== *)
(** ** The scan utilities *)
(* ===================================================================== *)

Module Scan.

Inductive RangeType := code_block | inline_code | heading | wikilink | tag.

(** [end] is the offset behind the last character of the range. *)
Record TextRange := {
  start : nat;
  end_ : nat;
  type : RangeType;
  content : str
}.

(** The loop [while ((match = re.exec(content)) !== null) ranges.push(...)]
    for a global pattern that never matches the empty string.
    [matchLen pre s] is the length of the match at the position that
    splits the subject into [rev pre] and [s], if there is one; [pos]
    is that position.  After a match the search resumes behind it. *)
Section Exec.
Variable kind : RangeType.
Variable matchLen : str -> str -> option nat.

Fixpoint scanFrom (pre : str) (pos skip : nat) (s : str) : list TextRange :=
  match s with
  | [] => []
  | c :: t =>
      match skip with
      | S k => scanFrom (c :: pre) (S pos) k t
      | O =>
          match matchLen pre s with
          | Some len =>
              {| start := pos;
                 end_ := pos + len;
                 type := kind;
                 content := firstn len s |}
                :: scanFrom (c :: pre) (S pos) (len - 1) t
          | None => scanFrom (c :: pre) (S pos) 0 t
          end
      end
  end.

Definition scan (content : str) : list TextRange := scanFrom [] 0 0 content.
End Exec.

(** The pattern [/```[\s\S]*?```/] at one position: three backticks,
    then as few characters as possible up to the next three. *)
Definition matchCodeBlock (s : str) : option nat :=
  if startsWith (u "```") s then
    match indexOf (u "```") (skipn 3 s) with
    | Some between => Some (between + 6)
    | None => None
    end
  else None.

Definition detectCodeBlocks (content : str) : list TextRange :=
  scan code_block (fun _ => matchCodeBlock) content.

Definition notBacktick (c : char) : bool := negb (N.eqb c BACKTICK).

(** The pattern [/`[^`]+`/] at one position. *)
Definition matchInlineCode (s : str) : option nat :=
  match s with
  | c :: t =>
      if N.eqb c BACKTICK then
        let run := takeWhile notBacktick t in
        if isEmpty run then None
        else if isEmpty (dropWhile notBacktick t) then None
        else Some (length run + 2)
      else None
  | [] => None
  end.

Definition detectInlineCode (content : str) : list TextRange :=
  scan inline_code (fun _ => matchInlineCode) content.

(** The characters [.] does not match and behind which [^] matches
    under the [m] flag. *)
Definition isLineTerminator (c : char) : bool :=
  (N.eqb c LF || N.eqb c CR || N.eqb c 8232%N || N.eqb c 8233%N)%bool.

Definition notLineTerminator (c : char) : bool := negb (isLineTerminator c).

Definition isHash (c : char) : bool := N.eqb c HASH.

(** [^] under the [m] flag. *)
Definition atLineStart (pre : str) : bool :=
  match pre with
  | [] => true
  | c :: _ => isLineTerminator c
  end.

(** [\s+(.+)$] on the text behind the hashes: [\s+] first takes the
    whole run of whitespace and gives characters back one at a time
    until [.+] finds a character of the line to start with; [.+] then
    runs to the end of the line, where [$] holds.  [j] is the number
    of whitespace characters [\s+] keeps. *)
Fixpoint matchHeadingBody (j : nat) (rest : str) : option nat :=
  match j with
  | O => None
  | S j' =>
      let text := takeWhile notLineTerminator (skipn j rest) in
      if isEmpty text then matchHeadingBody j' rest
      else Some (j + length text)
  end.

(** The pattern [/^(#{1,6})\s+(.+)$/m] at one position.  Whitespace
    must follow the hashes, so the group takes all of them, and there
    must be six at most. *)
Definition matchHeading (pre s : str) : option nat :=
  if atLineStart pre then
    let hashes := length (takeWhile isHash s) in
    if ((1 <=? hashes) && (hashes <=? 6))%bool then
      let rest := dropWhile isHash s in
      match matchHeadingBody (length (takeWhile isWhiteSpace rest)) rest with
      | Some n => Some (hashes + n)
      | None => None
      end
    else None
  else None.

Definition detectHeadings (content : str) : list TextRange :=
  scan heading matchHeading content.

Definition detectWikilinks (content : str) : list TextRange :=
  scan wikilink
       (fun _ s => option_map snd (WikilinkInserter.matchWikilink s))
       content.

Definition detectTags (content : str) : list TextRange :=
  scan tag (fun _ s => option_map snd (TagRules.matchTag s)) content.

Definition isInRange (position : nat) (ranges : list TextRange) : bool :=
  existsb
    (fun range => ((start range <=? position) && (position <? end_ range))%bool)
    ranges.

(** [.sort((a, b) => a.start - b.start)]: the sort is stable. *)
Fixpoint insertByStart (r : TextRange) (l : list TextRange) : list TextRange :=
  match l with
  | [] => [r]
  | r' :: rest =>
      if start r <=? start r' then r :: l
      else r' :: insertByStart r rest
  end.

Definition sortByStart (l : list TextRange) : list TextRange :=
  fold_right insertByStart [] l.

Definition getProtectedRanges (content : str) : list TextRange :=
  sortByStart (detectCodeBlocks content ++ detectInlineCode content).

End Scan.

(* ===================================================================== *)
(** ** The change report *)
(* ===================================================================== *)

Module ChangeReporter.
Import Report.

Definition COMMA : char := 44%N.
Definition CHECK_MARK : char := 10003%N.

(** The reporter's own [extractFrontmatter]: the header alone. *)
Definition extractFrontmatter (content : str) : option str :=
  let trimmed := trimStart content in
  if negb (startsWith (u "---") trimmed) then None
  else
    let afterFirst := sliceFrom 3 trimmed in
    match indexOf (LF :: u "---") afterFirst with
    | None => None
    | Some endIndex => Some (sliceTo endIndex afterFirst)
    end.

(** [s.split(/\r?\n/)] *)
Fixpoint splitLines (s : str) : list str :=
  match s with
  | [] => [[]]
  | c :: t =>
      if N.eqb c LF then [] :: splitLines t
      else
        match t with
        | c2 :: t2 =>
            if (N.eqb c CR && N.eqb c2 LF)%bool then [] :: splitLines t2
            else match splitLines t with
                 | line :: lines => (c :: line) :: lines
                 | [] => [[c]]
                 end
        | [] => [[c]]
        end
  end.

(** [parts.join(sep)] *)
Fixpoint joinWith (sep : str) (parts : list str) : str :=
  match parts with
  | [] => []
  | [p] => p
  | p :: rest => p ++ sep ++ joinWith sep rest
  end.

(** [s.split(/\r?\n/).filter(line => line.trim())] *)
Definition contentLines (s : str) : list str :=
  filter (fun line => negb (isEmpty (trim line))) (splitLines s).

Definition hasFormattingChanges (original normalized : str) : bool :=
  let originalLines := contentLines original in
  let normalizedLines := contentLines normalized in
  (str_eqb (joinWith [LF] originalLines) (joinWith [LF] normalizedLines)
   && negb (str_eqb original normalized))%bool.

(** The default [sort] of an array of strings. *)
Fixpoint insertString (x : str) (l : list str) : list str :=
  match l with
  | [] => [x]
  | y :: rest => if str_leb x y then x :: l else y :: insertString x rest
  end.

Definition sortStrings (l : list str) : list str :=
  fold_right insertString [] l.

(** [(s.match(/#([a-zA-Z0-9_\-\/]+)/g) || [])]: the matched texts. *)
Definition tagMatches (s : str) : list str :=
  map Scan.content (Scan.detectTags s).

(** [(s.match(/\[\[([^\]]+)\]\]/g) || [])] *)
Definition wikilinkMatches (s : str) : list str :=
  map Scan.content (Scan.detectWikilinks s).

Definition hasTagChanges (original normalized : str) : bool :=
  let originalTags := sortStrings (tagMatches original) in
  let normalizedTags := sortStrings (tagMatches normalized) in
  negb (str_eqb (joinWith [COMMA] originalTags)
                (joinWith [COMMA] normalizedTags)).

Definition hasWikilinkChanges (original normalized : str) : bool :=
  let originalLinks := sortStrings (wikilinkMatches original) in
  let normalizedLinks := sortStrings (wikilinkMatches normalized) in
  negb (str_eqb (joinWith [COMMA] originalLinks)
                (joinWith [COMMA] normalizedLinks)).

(** [a !== b] on [string | null] *)
Definition differ (a b : option str) : bool :=
  match a, b with
  | None, None => false
  | Some x, Some y => negb (str_eqb x y)
  | _, _ => true
  end.

Definition generateChangeReport
           (filePath fileName originalContent normalizedContent : str)
  : ChangeReport :=
  if str_eqb originalContent normalizedContent then
    {| filePath := filePath;
       fileName := fileName;
       changes := [];
       originalContent := originalContent;
       normalizedContent := normalizedContent |}
  else
    let changes := [] in
    let originalHasFrontmatter :=
      startsWith (u "---") (trimStart originalContent) in
    let normalizedHasFrontmatter :=
      startsWith (u "---") (trimStart normalizedContent) in
    let changes :=
      if (negb originalHasFrontmatter && normalizedHasFrontmatter)%bool then
        changes ++ [ {| type := frontmatter_added;
                        description := u "Added frontmatter";
                        lineNumber := Some 1 |} ]
      else if (originalHasFrontmatter && normalizedHasFrontmatter)%bool then
        let originalFrontmatter := extractFrontmatter originalContent in
        let normalizedFrontmatter := extractFrontmatter normalizedContent in
        if differ originalFrontmatter normalizedFrontmatter then
          changes ++ [ {| type := frontmatter_normalized;
                          description := u "Normalized frontmatter";
                          lineNumber := Some 1 |} ]
        else changes
      else changes in
    let changes :=
      if hasFormattingChanges originalContent normalizedContent then
        changes ++ [ {| type := formatting_normalized;
                        description :=
                          u "Normalized formatting (line endings, blank lines, trailing newline)";
                        lineNumber := None |} ]
      else changes in
    let changes :=
      if hasTagChanges originalContent normalizedContent then
        changes ++ [ {| type := tags_normalized;
                        description := u "Normalized tag formatting";
                        lineNumber := None |} ]
      else changes in
    let changes :=
      if hasWikilinkChanges originalContent normalizedContent then
        changes ++ [ {| type := wikilinks_normalized;
                        description := u "Normalized wikilink paths";
                        lineNumber := None |} ]
      else changes in
    {| filePath := filePath;
       fileName := fileName;
       changes := changes;
       originalContent := originalContent;
       normalizedContent := normalizedContent |}.

(** [change.lineNumber ? ` (line ${change.lineNumber})` : ''] *)
Definition lineInfo (change : Change) : str :=
  match lineNumber change with
  | Some (S n) => u " (line " ++ decimal (S n) ++ u ")"
  | _ => []
  end.

Definition formatReportAsMarkdown (report : ChangeReport) : str :=
  let markdown := u "# Linting Report: " ++ fileName report ++ [LF; LF] in
  let markdown :=
    markdown ++ u "**File Path**: `" ++ filePath report ++ u "`" ++ [LF; LF] in
  if length (changes report) =? 0 then
    markdown ++ [CHECK_MARK]
             ++ u " No changes needed - file already conforms to linting rules"
             ++ [LF; LF]
  else
    let markdown :=
      markdown ++ u "## Changes Applied ("
               ++ decimal (length (changes report)) ++ u ")" ++ [LF; LF] in
    let markdown :=
      fold_left
        (fun md change =>
           md ++ u "- **" ++ typeName (type change) ++ u "**"
              ++ lineInfo change ++ u ": " ++ description change ++ [LF])
        (changes report) markdown in
    markdown ++ [LF].

End ChangeReporter.

(* ===================================================================== *)
(** ** main.ts *)
(* ===================================================================== *)

Module VaultLinterPlugin.
Section WithRuntime.
Context {rt : CaseConv}.
Variable settings : VaultLinterSettings.
Variable now : str.

Definition lintContent (content fileName : str) : str :=
  NormalizationPipeline.normalize settings now content fileName.

(** A file of the vault as the dry run reads it: path, name, content. *)
Record VaultFile := {
  path : str;
  name : str;
  fileContent : str
}.

(** The reports the dry run of the vault collects, for the files
    that could be read. *)
Definition dryRunReports (files : list VaultFile) : list Report.ChangeReport :=
  map (fun file =>
         let content := fileContent file in
         let normalized := lintContent content (name file) in
         ChangeReporter.generateChangeReport
           (path file) (name file) content normalized)
      files.

(** [new Date().toISOString().replace(/[:.]/g, '-')] *)
Definition fileTimestamp : str :=
  map (fun c => if (N.eqb c 58%N || N.eqb c 46%N)%bool then HYPHEN else c) now.

(** The path the vault report is written to. *)
Definition reportFileName : str :=
  u "Reports" ++ u "/vault-lint-report-" ++ fileTimestamp ++ u ".md".
End WithRuntime.
End VaultLinterPlugin.

(* ===================================================================== *)
(** ** Vocabulary of the statements *)
(* ===================================================================== *)

(** The text after the last occurrence of [c], the whole text when
    there is none. *)
Fixpoint afterLast (c : char) (s : str) : str :=
  match s with
  | [] => []
  | x :: t =>
      if existsb (N.eqb c) t then afterLast c t
      else if N.eqb c x then t else s
  end.

(** The text before the first [c], and the text after it when there
    is one. *)
Definition beforeFirst (c : char) (s : str) : str :=
  takeWhile (fun x => negb (N.eqb c x)) s.

Definition afterFirst (c : char) (s : str) : option str :=
  match dropWhile (fun x => negb (N.eqb c x)) s with
  | [] => None
  | _ :: t => Some t
  end.

(** The 'shortest' style in words: the text after the last slash,
    unless nothing follows that slash, without a final [.md]. *)
Definition shortestPath (linkPath : str) : str :=
  stripMd (if isEmpty (afterLast SLASH linkPath) then linkPath
           else afterLast SLASH linkPath).

Definition styledPath (style : WikilinkStyle) (linkPath : str) : str :=
  match style with
  | shortest => shortestPath linkPath
  | relative => linkPath
  | absolute => linkPath
  end.

(** [normalizeWikilinkPath] in the words of the specification: split
    on the first pipe, the alias being all that follows it, trimmed;
    'shortest' keeps the final segment of the link path and strips a
    final [.md]; the alias, when there is one, is put back. *)
Definition spec_normalizeWikilinkPath
           (st : VaultLinterSettings) (path : str) : str :=
  if negb (safeWikilinkInsertion st) then path
  else
    let linkPath := beforeFirst PIPE path in
    let alias := option_map trim (afterFirst PIPE path) in
    let linkPath :=
      match wikilinkStyle st with
      | shortest => stripMd (afterLast SLASH linkPath)
      | relative => linkPath
      | absolute => linkPath
      end in
    match alias with
    | Some a => linkPath ++ [PIPE] ++ a
    | None => linkPath
    end.

(** The last section of the report, for the given unchanged files. *)
Definition unchangedListing (unchangedFiles : list Report.ChangeReport) : str :=
  u "## Files Already Conforming" ++ [LF; LF]
  ++ flat_map Report.unchangedLine unchangedFiles ++ [LF].

(** The same reports with the path of every unchanged one rewritten. *)
Definition relabelUnchanged (g : str -> str) (r : Report.ChangeReport) : Report.ChangeReport :=
  if Report.isUnchanged r then
    {| Report.filePath := g (Report.filePath r);
       Report.fileName := Report.fileName r;
       Report.changes := Report.changes r;
       Report.originalContent := Report.originalContent r;
       Report.normalizedContent := Report.normalizedContent r |}
  else r.

Definition leadingLF (s : str) : nat := length (takeWhile FormattingNormalizer.isLF s).

(** No three line feeds in a row. *)
Fixpoint tripleFree (s : str) : bool :=
  match s with
  | [] => true
  | _ :: t => (negb (3 <=? leadingLF s) && tripleFree t)%bool
  end.

(** The pattern [/\n{3,}/] at one position. *)
Definition matchRun (s : str) : option (nat * str) :=
  if 3 <=? length (takeWhile FormattingNormalizer.isLF s)
  then Some (length (takeWhile FormattingNormalizer.isLF s), [LF; LF]) else None.

Definition collapse (pre : str) (skip : nat) (s : str) : str :=
  replaceFrom (fun _ => matchRun) pre skip s.

(** Every range is non-empty, lies within the content and carries
    the text the content has between its two offsets. *)
Definition rangesWithin (content : str) (l : list Scan.TextRange) : Prop :=
  Forall
    (fun r =>
       Scan.start r < Scan.end_ r <= length content
       /\ Scan.content r
          = firstn (Scan.end_ r - Scan.start r) (skipn (Scan.start r) content))
    l.

(** Every range ends before the ranges behind it start. *)
Definition rangesInOrder (l : list Scan.TextRange) : Prop :=
  StronglySorted (fun a b => Scan.end_ a <= Scan.start b) l.

(** Every range starts no later than the ranges behind it. *)
Definition sortedByStart (l : list Scan.TextRange) : Prop :=
  StronglySorted (fun a b => Scan.start a <= Scan.start b) l.

(** What a detector must return: ranges within the content, in
    order and apart from one another. *)
Definition wellScanned (content : str) (l : list Scan.TextRange) : Prop :=
  rangesWithin content l /\ rangesInOrder l.

(** The text without the characters of [p] at its end. *)
Fixpoint dropTrailing (p : char -> bool) (s : str) : str :=
  match s with
  | [] => []
  | c :: t =>
      match dropTrailing p t with
      | [] => if p c then [] else [c]
      | r => c :: r
      end
  end.

(** Identifier characters, and hyphens that no hyphen follows. *)
Fixpoint slug (s : str) : bool :=
  match s with
  | [] => true
  | c :: t =>
      ((FrontmatterEnforcer.isIdChar c
        || (FrontmatterEnforcer.isHyphen c && negb (startsWith [HYPHEN] t)))
       && slug t)%bool
  end.

(** The place of a kind of change in a report; the two frontmatter
    kinds share the first place. *)
Definition changeRank (t : Report.ChangeType) : nat :=
  match t with
  | Report.frontmatter_added => 0
  | Report.frontmatter_normalized => 0
  | Report.formatting_normalized => 1
  | Report.tags_normalized => 2
  | Report.wikilinks_normalized => 3
  end.

(** The number of changes in a list of reports. *)
Definition totalChanges (reports : list Report.ChangeReport) : nat :=
  list_sum (map (fun r => length (Report.changes r)) reports).

(** The class [[^a-z0-9]] *)
Definition notIdChar (c : char) : bool := negb (FrontmatterEnforcer.isIdChar c).

(** A line feed and the closing delimiter. *)
Definition DELIMITER : str := LF :: u "---".

(** Counting one more change of a kind. *)
Definition bump (m : Report.TypeMap) (k : Report.ChangeType) : Report.TypeMap :=
  Report.mapSet m k (match Report.mapGet m k with Some n => n | None => 0 end + 1).

(** A tally of [n] changes: counts that add up to [n], distinct
    kinds, no empty count. *)
Definition tallyOk (m : Report.TypeMap) (n : nat) : Prop :=
  list_sum (map snd m) = n
  /\ NoDup (map fst m)
  /\ Forall (fun e => 0 < snd e) m.

(* ===================================================================== *)
(** ** Sample inputs *)
(* ===================================================================== *)

Definition sample_now : str := u "2024-01-01T10:00:00.000Z".
Definition later_now : str := u "2024-01-02T10:00:00.000Z".

Definition ALL_DISABLED : VaultLinterSettings :=
  {| enforceFrontmatter := false;
     frontmatterTemplate := frontmatterTemplate DEFAULT_SETTINGS;
     normalizeFormatting := false;
     endWithNewline := false;
     removeMultipleBlankLines := false;
     enforceTagRules := false;
     tagFormat := camelCase;
     safeWikilinkInsertion := false;
     wikilinkStyle := shortest |}.

(** Only the tag rules on, with the given format. *)
Definition TAGS_ONLY (format : TagFormat) : VaultLinterSettings :=
  {| enforceFrontmatter := false;
     frontmatterTemplate := frontmatterTemplate DEFAULT_SETTINGS;
     normalizeFormatting := false;
     endWithNewline := false;
     removeMultipleBlankLines := false;
     enforceTagRules := true;
     tagFormat := format;
     safeWikilinkInsertion := false;
     wikilinkStyle := shortest |}.

(** Only the formatting rules on. *)
Definition FORMATTING_ONLY : VaultLinterSettings :=
  {| enforceFrontmatter := false;
     frontmatterTemplate := frontmatterTemplate DEFAULT_SETTINGS;
     normalizeFormatting := true;
     endWithNewline := true;
     removeMultipleBlankLines := true;
     enforceTagRules := false;
     tagFormat := none;
     safeWikilinkInsertion := false;
     wikilinkStyle := shortest |}.

(** Only the wikilink rule on, with the given style. *)
Definition WIKILINKS_ONLY (style : WikilinkStyle) : VaultLinterSettings :=
  {| enforceFrontmatter := false;
     frontmatterTemplate := frontmatterTemplate DEFAULT_SETTINGS;
     normalizeFormatting := false;
     endWithNewline := false;
     removeMultipleBlankLines := false;
     enforceTagRules := false;
     tagFormat := none;
     safeWikilinkInsertion := true;
     wikilinkStyle := style |}.

(** Only the frontmatter rule on, with a template of title and date. *)
Definition FRONTMATTER_ONLY : VaultLinterSettings :=
  {| enforceFrontmatter := true;
     frontmatterTemplate :=
       u "---" ++ [LF] ++ u "title: {{title}}" ++ [LF]
       ++ u "date: {{date}}" ++ [LF] ++ u "---";
     normalizeFormatting := false;
     endWithNewline := false;
     removeMultipleBlankLines := false;
     enforceTagRules := false;
     tagFormat := none;
     safeWikilinkInsertion := false;
     wikilinkStyle := shortest |}.

Definition conforming_report (path : str) : Report.ChangeReport :=
  {| Report.filePath := path;
     Report.fileName := u "a.md";
     Report.changes := [];
     Report.originalContent := u "x";
     Report.normalizedContent := u "x" |}.

Definition changed_report : Report.ChangeReport :=
  {| Report.filePath := u "notes/b.md";
     Report.fileName := u "b.md";
     Report.changes :=
       [ {| Report.type := Report.tags_normalized;
            Report.description := u "Normalized tag formatting";
            Report.lineNumber := None |};
         {| Report.type := Report.frontmatter_added;
            Report.description := u "Added frontmatter";
            Report.lineNumber := Some 1 |} ];
     Report.originalContent := u "#A";
     Report.normalizedContent := u "#a" |}.

(* ===================================================================== *)
(** ** Facts about the string operations *)
(* ===================================================================== *)

Section StringFacts.

Lemma startsWith_refl_app (p s : str) : startsWith p (p ++ s) = true.
Proof.
  induction p as [|x p IH]; simpl; [reflexivity|].
  now rewrite N.eqb_refl, IH.
Qed.

Lemma startsWith_app_r (p a b : str) :
  startsWith p a = true -> startsWith p (a ++ b) = true.
Proof.
  revert a; induction p as [|x p IH]; intros [|y a] H; simpl in *;
    try reflexivity; try discriminate.
  apply andb_true_iff in H as [Hxy Hp].
  now rewrite Hxy, (IH _ Hp).
Qed.

Lemma startsWith_true_split (p s : str) :
  startsWith p s = true -> s = p ++ skipn (length p) s.
Proof.
  revert s; induction p as [|x p IH]; intros [|y s] H; simpl in *;
    try reflexivity; try discriminate.
  apply andb_true_iff in H as [Hxy Hp].
  apply N.eqb_eq in Hxy; subst y.
  now rewrite <- (IH _ Hp).
Qed.

Lemma startsWith_cons_inv (x : char) (p : str) (c : char) (s : str) :
  startsWith (x :: p) (c :: s) = true -> x = c /\ startsWith p s = true.
Proof.
  cbn [startsWith]. intros H. apply andb_true_iff in H as [Hc Hp].
  apply N.eqb_eq in Hc. now split.
Qed.

Lemma dropWhile_all (p : char -> bool) (w s : str) :
  forallb p w = true -> dropWhile p (w ++ s) = dropWhile p s.
Proof.
  induction w as [|c w IH]; simpl; [reflexivity|].
  intros H; apply andb_true_iff in H as [Hc Hw].
  now rewrite Hc, IH.
Qed.

Lemma dropWhile_stop (p : char -> bool) (c : char) (s : str) :
  p c = false -> dropWhile p (c :: s) = c :: s.
Proof. now intros H; simpl; rewrite H. Qed.

Lemma takeWhile_all (p : char -> bool) (a : str) (c : char) (s : str) :
  forallb p a = true -> p c = false -> takeWhile p (a ++ c :: s) = a.
Proof.
  intros Ha Hc; induction a as [|x a IH]; simpl in *.
  - now rewrite Hc.
  - apply andb_true_iff in Ha as [Hx Ha]. now rewrite Hx, IH.
Qed.

Lemma dropWhile_cut (p : char -> bool) (a : str) (c : char) (s : str) :
  forallb p a = true -> p c = false -> dropWhile p (a ++ c :: s) = c :: s.
Proof.
  intros Ha Hc. rewrite dropWhile_all by assumption.
  now apply dropWhile_stop.
Qed.

Lemma trimStart_whitespace (w s : str) :
  forallb isWhiteSpace w = true -> trimStart (w ++ s) = trimStart s.
Proof. apply dropWhile_all. Qed.


(** [indexOf] finds nothing exactly when the pattern occurs nowhere. *)
Lemma indexOf_None (p s : str) :
  (forall a b, s <> a ++ p ++ b) -> indexOf p s = None.
Proof.
  induction s as [|c s IH]; intros H.
  - simpl. destruct (startsWith p []) eqn:E; [|reflexivity].
    apply startsWith_true_split in E. exfalso. apply (H [] (skipn (length p) [])).
    exact E.
  - cbn [indexOf]. destruct (startsWith p (c :: s)) eqn:E.
    + apply startsWith_true_split in E. exfalso.
      apply (H [] (skipn (length p) (c :: s))). exact E.
    + rewrite IH; [reflexivity|].
      intros a b Hab. apply (H (c :: a) b). now rewrite Hab.
Qed.

Lemma indexOf_found (p s : str) :
  startsWith p s = true -> indexOf p s = Some 0.
Proof. intros H. destruct s; cbn [indexOf]; now rewrite H. Qed.

Lemma indexOf_None_inv (p s : str) :
  indexOf p s = None -> forall a b, s <> a ++ p ++ b.
Proof.
  intros H a. revert s H. induction a as [|x a IH]; intros s H b Hs; subst s.
  - cbn [app] in H. rewrite indexOf_found in H by apply startsWith_refl_app.
    discriminate H.
  - cbn [app indexOf] in H.
    destruct (startsWith p (x :: a ++ p ++ b)); [discriminate H|].
    destruct (indexOf p (a ++ p ++ b)) eqn:E; [discriminate H|].
    exact (IH _ E b eq_refl).
Qed.

End StringFacts.

(* ===================================================================== *)
(** ** Frontmatter enforcement *)
(* ===================================================================== *)

Section FrontmatterFacts.
Context {rt : CaseConv}.
Variable st : VaultLinterSettings.
Variable now : str.

Lemma hasFrontmatter_startsWith (s : str) :
  startsWith (u "---") s = true -> FrontmatterEnforcer.hasFrontmatter s = true.
Proof.
  intros H. unfold FrontmatterEnforcer.hasFrontmatter, trimStart.
  destruct s as [|c s]; [discriminate|].
  pose proof H as Hc.
  change (u "---") with (HYPHEN :: u "--") in Hc.
  apply startsWith_cons_inv in Hc as [Hc _]. subst c.
  rewrite dropWhile_stop by reflexivity.
  exact H.
Qed.

Lemma hasFrontmatter_after_whitespace (w rest : str) :
  forallb isWhiteSpace w = true ->
  FrontmatterEnforcer.hasFrontmatter (w ++ u "---" ++ rest) = true.
Proof.
  intros Hw. unfold FrontmatterEnforcer.hasFrontmatter.
  rewrite trimStart_whitespace by assumption.
  apply (hasFrontmatter_startsWith (u "---" ++ rest)).
  apply startsWith_refl_app.
Qed.

Lemma generateFrontmatter_startsWith (fileName : str) :
  enforceFrontmatter st = true ->
  startsWith (u "---") (FrontmatterEnforcer.generateFrontmatter st now fileName) = true.
Proof.
  intros He. unfold FrontmatterEnforcer.generateFrontmatter.
  rewrite He. cbn [negb].
  set (fm := replaceLiteral _ _ _).
  assert (H : startsWith (u "---")
                (if negb (startsWith (u "---") fm)
                 then u "---" ++ [LF] ++ fm else fm) = true).
  { destruct (startsWith (u "---") fm) eqn:E; cbn [negb].
    - exact E.
    - apply startsWith_refl_app. }
  cbv zeta.
  match goal with
  | |- startsWith _ (if negb (endsWith _ ?x) then _ else _) = true =>
      destruct (negb (endsWith (u "---") x))
  end.
  - apply startsWith_app_r. exact H.
  - exact H.
Qed.

Lemma enforce_existing (content fileName : str) :
  FrontmatterEnforcer.hasFrontmatter content = true ->
  FrontmatterEnforcer.enforce st now content fileName = content.
Proof.
  intros H. unfold FrontmatterEnforcer.enforce. rewrite H.
  now destruct (negb (enforceFrontmatter st)).
Qed.

End FrontmatterFacts.

(** C6: when enforcement is on and the content has no frontmatter,
    [enforce] returns the generated header, a blank line and the
    content; the result has frontmatter and ends with the content. *)
Theorem enforce_inserts_header {rt : CaseConv}
        (st : VaultLinterSettings) (now S fileName : str) :
  enforceFrontmatter st = true ->
  FrontmatterEnforcer.hasFrontmatter S = false ->
  FrontmatterEnforcer.hasFrontmatter
    (FrontmatterEnforcer.enforce st now S fileName) = true
  /\ FrontmatterEnforcer.enforce st now S fileName
     = FrontmatterEnforcer.generateFrontmatter st now fileName ++ [LF; LF] ++ S.
Proof.
  intros He Hno.
  assert (Heq : FrontmatterEnforcer.enforce st now S fileName
                = FrontmatterEnforcer.generateFrontmatter st now fileName
                  ++ [LF; LF] ++ S).
  { unfold FrontmatterEnforcer.enforce. now rewrite He, Hno. }
  split; [|exact Heq].
  rewrite Heq. apply hasFrontmatter_startsWith.
  apply startsWith_app_r. now apply generateFrontmatter_startsWith.
Qed.

Lemma enforce_inserts_header_witness :
  enforceFrontmatter DEFAULT_SETTINGS = true
  /\ FrontmatterEnforcer.hasFrontmatter (u "body") = false
  /\ FrontmatterEnforcer.hasFrontmatter
       (FrontmatterEnforcer.enforce (rt := AsciiCase) DEFAULT_SETTINGS
          sample_now (u "body") (u "My Note.md")) = true
  /\ FrontmatterEnforcer.enforce (rt := AsciiCase) DEFAULT_SETTINGS
       sample_now (u "body") (u "My Note.md")
     = FrontmatterEnforcer.generateFrontmatter (rt := AsciiCase)
         DEFAULT_SETTINGS sample_now (u "My Note.md") ++ [LF; LF] ++ u "body".
Proof.
  split; [reflexivity|]. split; [reflexivity|].
  apply (@enforce_inserts_header AsciiCase DEFAULT_SETTINGS sample_now
           (u "body") (u "My Note.md")); reflexivity.
Defined.

(** C4, counterexample: a block that opens with the delimiter and is
    never closed does count as frontmatter, and nothing is prepended. *)
Lemma unterminated_block_has_frontmatter :
  ~ (forall (st : VaultLinterSettings) (now content fileName : str),
        enforceFrontmatter st = true ->
        startsWith (u "---") (trimStart content) = true ->
        indexOf (LF :: u "---") content = None ->
        FrontmatterEnforcer.hasFrontmatter content = false
        /\ FrontmatterEnforcer.enforce (rt := AsciiCase) st now content fileName
           = FrontmatterEnforcer.generateFrontmatter (rt := AsciiCase)
               st now fileName ++ [LF; LF] ++ content).
Proof.
  intros H.
  destruct (H DEFAULT_SETTINGS sample_now
              (u "---" ++ [LF] ++ u "title: x") (u "n.md")) as [Hf _];
    try reflexivity.
  vm_compute in Hf. discriminate Hf.
Qed.

(** C4, amended: content that starts, after leading whitespace, with
    the delimiter has frontmatter whether or not the block is closed,
    and [enforce] returns it unchanged; it is [extractFrontmatter] that
    finds nothing when no newline followed by the delimiter closes the
    block. *)
Theorem unterminated_block_left_alone {rt : CaseConv}
        (st : VaultLinterSettings) (now w rest fileName : str) :
  forallb isWhiteSpace w = true ->
  FrontmatterEnforcer.hasFrontmatter (w ++ u "---" ++ rest) = true
  /\ FrontmatterEnforcer.enforce st now (w ++ u "---" ++ rest) fileName
     = w ++ u "---" ++ rest
  /\ ((forall a b, rest <> a ++ (LF :: u "---") ++ b) ->
      FrontmatterEnforcer.extractFrontmatter (w ++ u "---" ++ rest) = None).
Proof.
  intros Hw.
  assert (Hf := hasFrontmatter_after_whitespace w rest Hw).
  split; [exact Hf|]. split; [now apply enforce_existing|].
  intros Hopen. unfold FrontmatterEnforcer.extractFrontmatter.
  rewrite trimStart_whitespace by assumption.
  replace (trimStart (u "---" ++ rest)) with (u "---" ++ rest)
    by (symmetry; apply dropWhile_stop; reflexivity).
  rewrite startsWith_refl_app. cbn [negb].
  change (sliceFrom 3 (u "---" ++ rest)) with rest.
  now rewrite indexOf_None.
Qed.

Lemma unterminated_block_left_alone_witness :
  forallb isWhiteSpace [SPACE; LF] = true
  /\ FrontmatterEnforcer.hasFrontmatter
       ([SPACE; LF] ++ u "---" ++ (LF :: u "title: x")) = true
  /\ FrontmatterEnforcer.enforce (rt := AsciiCase) DEFAULT_SETTINGS sample_now
       ([SPACE; LF] ++ u "---" ++ (LF :: u "title: x")) (u "n.md")
     = [SPACE; LF] ++ u "---" ++ (LF :: u "title: x")
  /\ FrontmatterEnforcer.extractFrontmatter
       ([SPACE; LF] ++ u "---" ++ (LF :: u "title: x")) = None.
Proof.
  split; [reflexivity|].
  destruct (@unterminated_block_left_alone AsciiCase DEFAULT_SETTINGS
              sample_now [SPACE; LF] (LF :: u "title: x") (u "n.md"))
    as [Hhas [Hsame Hnone]]; [reflexivity|].
  split; [exact Hhas|]. split; [exact Hsame|].
  apply Hnone. apply indexOf_None_inv. reflexivity.
Defined.

(* ===================================================================== *)
(** ** The pipeline: disabled rules and the clock *)
(* ===================================================================== *)

(** C7: with every rule flag off the pipeline returns its input. *)
Theorem normalize_all_disabled {rt : CaseConv}
        (st : VaultLinterSettings) (now S fileName : str) :
  enforceFrontmatter st = false ->
  normalizeFormatting st = false ->
  endWithNewline st = false ->
  removeMultipleBlankLines st = false ->
  enforceTagRules st = false ->
  safeWikilinkInsertion st = false ->
  NormalizationPipeline.normalize st now S fileName = S.
Proof.
  intros Hfm Hfmt _ _ Htag Hwl.
  unfold NormalizationPipeline.normalize, FrontmatterEnforcer.enforce,
    FormattingNormalizer.normalize, TagRules.enforce, WikilinkInserter.normalize.
  now rewrite Hfm, Hfmt, Htag, Hwl.
Qed.

Lemma normalize_all_disabled_witness :
  NormalizationPipeline.normalize (rt := AsciiCase) ALL_DISABLED sample_now
    (u "a" ++ [CR; LF; LF; LF; LF] ++ u "#My_Tag [[d/p.md|x]]  ") (u "n.md")
  = u "a" ++ [CR; LF; LF; LF; LF] ++ u "#My_Tag [[d/p.md|x]]  ".
Proof.
  apply (@normalize_all_disabled AsciiCase ALL_DISABLED sample_now
           (u "a" ++ [CR; LF; LF; LF; LF] ++ u "#My_Tag [[d/p.md|x]]  ")
           (u "n.md")); reflexivity.
Defined.

(** C8, counterexample: the generated header carries the date of the
    day, so the same content and file name give two different results
    on two different days. *)
Lemma normalize_varies_with_the_day :
  NormalizationPipeline.normalize (rt := AsciiCase) DEFAULT_SETTINGS
    sample_now (u "note") (u "n.md")
  <> NormalizationPipeline.normalize (rt := AsciiCase) DEFAULT_SETTINGS
       later_now (u "note") (u "n.md").
Proof. vm_compute. discriminate. Qed.

(** C8, amended: the result depends on the clock through the calendar
    date alone.  Two invocations on the same content and file name
    whose timestamps fall on the same day return the same string. *)
Theorem normalize_same_day {rt : CaseConv}
        (st : VaultLinterSettings) (now1 now2 content fileName : str) :
  FrontmatterEnforcer.today now1 = FrontmatterEnforcer.today now2 ->
  NormalizationPipeline.normalize st now1 content fileName
  = NormalizationPipeline.normalize st now2 content fileName.
Proof.
  intros Hday.
  unfold NormalizationPipeline.normalize, FrontmatterEnforcer.enforce,
    FrontmatterEnforcer.generateFrontmatter.
  now rewrite Hday.
Qed.

Lemma normalize_same_day_witness :
  FrontmatterEnforcer.today sample_now
  = FrontmatterEnforcer.today (u "2024-01-01T23:59:59.999Z")
  /\ NormalizationPipeline.normalize (rt := AsciiCase) DEFAULT_SETTINGS
       sample_now (u "note") (u "n.md")
     = NormalizationPipeline.normalize (rt := AsciiCase) DEFAULT_SETTINGS
         (u "2024-01-01T23:59:59.999Z") (u "note") (u "n.md").
Proof.
  split; [reflexivity|].
  apply (@normalize_same_day AsciiCase DEFAULT_SETTINGS sample_now
           (u "2024-01-01T23:59:59.999Z") (u "note") (u "n.md")).
  reflexivity.
Defined.

(* ===================================================================== *)
(** ** The vault report *)
(* ===================================================================== *)

Module ReportFacts.
Import Report.

Lemma fold_left_append {A : Type} (f : A -> str) (l : list A) (acc : str) :
  fold_left (fun md x => md ++ f x) l acc = acc ++ flat_map f l.
Proof.
  revert acc; induction l as [|x l IH]; intros acc; simpl.
  - now rewrite app_nil_r.
  - now rewrite IH, <- app_assoc.
Qed.

Lemma isChanged_isUnchanged (r : ChangeReport) :
  isChanged r = negb (isUnchanged r).
Proof.
  unfold isChanged, isUnchanged. now destruct (length (changes r)).
Qed.

Lemma relabel_isUnchanged (g : str -> str) (r : ChangeReport) :
  isUnchanged (relabelUnchanged g r) = isUnchanged r.
Proof.
  unfold relabelUnchanged. now destruct (isUnchanged r) eqn:E.
Qed.

Lemma filter_changed_relabel (g : str -> str) (rs : list ChangeReport) :
  filter isChanged (map (relabelUnchanged g) rs) = filter isChanged rs.
Proof.
  induction rs as [|r rs IH]; simpl; [reflexivity|].
  rewrite !isChanged_isUnchanged, relabel_isUnchanged, IH.
  unfold relabelUnchanged.
  now destruct (isUnchanged r).
Qed.

Lemma count_unchanged_relabel (g : str -> str) (rs : list ChangeReport) :
  length (filter isUnchanged (map (relabelUnchanged g) rs))
  = length (filter isUnchanged rs).
Proof.
  induction rs as [|r rs IH]; simpl; [reflexivity|].
  rewrite relabel_isUnchanged.
  destruct (isUnchanged r); simpl; now rewrite IH.
Qed.

Lemma vaultReportHead_relabel (g : str -> str) (ts : str) (rs : list ChangeReport) :
  vaultReportHead ts (map (relabelUnchanged g) rs) = vaultReportHead ts rs.
Proof.
  unfold vaultReportHead.
  now rewrite length_map, filter_changed_relabel, count_unchanged_relabel.
Qed.

Lemma formatVaultReport_split (ts : str) (rs : list ChangeReport) :
  formatVaultReportAsMarkdown ts rs
  = vaultReportHead ts rs
    ++ (if ((0 <? length (filter isUnchanged rs))
            && (length (filter isUnchanged rs) <=? 20))%bool
        then unchangedListing (filter isUnchanged rs) else []).
Proof.
  unfold formatVaultReportAsMarkdown, unchangedListing.
  destruct (_ && _)%bool.
  - rewrite fold_left_append. now rewrite <- !app_assoc.
  - now rewrite app_nil_r.
Qed.

End ReportFacts.

(** C9: the list of unchanged paths is the last section of the vault
    report and is rendered when there are between one and twenty
    unchanged reports; with more than twenty the report stops before
    it, and what is rendered then shows no path of an unchanged
    report: rewriting those paths leaves it as it is. *)
Theorem unchanged_listing_up_to_twenty
        (timestamp : str) (reports : list Report.ChangeReport) :
  (20 < length (filter Report.isUnchanged reports) ->
   Report.formatVaultReportAsMarkdown timestamp reports
   = Report.vaultReportHead timestamp reports)
  /\ (0 < length (filter Report.isUnchanged reports) <= 20 ->
      Report.formatVaultReportAsMarkdown timestamp reports
      = Report.vaultReportHead timestamp reports
        ++ u "## Files Already Conforming" ++ [LF; LF]
        ++ flat_map Report.unchangedLine (filter Report.isUnchanged reports)
        ++ [LF])
  /\ (forall g : str -> str,
        Report.vaultReportHead timestamp
          (map (relabelUnchanged g) reports)
        = Report.vaultReportHead timestamp reports).
Proof.
  split; [|split].
  - intros Hn. rewrite ReportFacts.formatVaultReport_split.
    destruct (Nat.leb_spec (length (filter Report.isUnchanged reports)) 20);
      [lia|].
    now rewrite andb_false_r, app_nil_r.
  - intros [Hpos Hle]. rewrite ReportFacts.formatVaultReport_split.
    destruct (Nat.leb_spec (length (filter Report.isUnchanged reports)) 20);
      [|lia].
    destruct (Nat.ltb_spec 0 (length (filter Report.isUnchanged reports)));
      [|lia].
    reflexivity.
  - intros g. apply ReportFacts.vaultReportHead_relabel.
Qed.

Lemma unchanged_listing_up_to_twenty_witness :
  (Report.formatVaultReportAsMarkdown sample_now
     (changed_report :: repeat (conforming_report (u "notes/a.md")) 21)
   = Report.vaultReportHead sample_now
       (changed_report :: repeat (conforming_report (u "notes/a.md")) 21))
  /\ (Report.formatVaultReportAsMarkdown sample_now
        [conforming_report (u "p.md"); changed_report;
         conforming_report (u "q.md")]
      = Report.vaultReportHead sample_now
          [conforming_report (u "p.md"); changed_report;
           conforming_report (u "q.md")]
        ++ u "## Files Already Conforming" ++ [LF; LF]
        ++ flat_map Report.unchangedLine
             [conforming_report (u "p.md"); conforming_report (u "q.md")]
        ++ [LF]).
Proof.
  split.
  - apply (proj1 (unchanged_listing_up_to_twenty sample_now
                    (changed_report
                       :: repeat (conforming_report (u "notes/a.md")) 21))).
    vm_compute. lia.
  - apply (proj1 (proj2 (unchanged_listing_up_to_twenty sample_now
                           [conforming_report (u "p.md"); changed_report;
                            conforming_report (u "q.md")]))).
    vm_compute. lia.
Defined.

(* ===================================================================== *)
(** ** Splitting and scanning *)
(* ===================================================================== *)

Section SplitFacts.
Variable sep : char -> bool.

Lemma splitBy_not_nil (s : str) : splitBy sep s <> [].
Proof.
  destruct s as [|c s]; simpl; [discriminate|].
  destruct (sep c); [discriminate|].
  destruct (splitBy sep s); discriminate.
Qed.

Lemma splitBy_no_separator (s : str) :
  existsb sep s = false -> splitBy sep s = [s].
Proof.
  induction s as [|c s IH]; simpl; [reflexivity|].
  intros H. apply orb_false_iff in H as [Hc Hs].
  now rewrite Hc, (IH Hs).
Qed.

Lemma splitBy_single (s seg : str) :
  splitBy sep s = [seg] -> existsb sep s = false /\ seg = s.
Proof.
  revert seg; induction s as [|c s IH]; intros seg; simpl.
  - intros H. injection H as <-. now split.
  - destruct (sep c) eqn:Hc.
    + intros H. injection H as _ H. now apply splitBy_not_nil in H.
    + destruct (splitBy sep s) as [|seg' segs] eqn:E.
      * now apply splitBy_not_nil in E.
      * intros H. injection H as <- ->.
        destruct (IH seg' eq_refl) as [Hs ->]. now split.
Qed.

Lemma splitBy_at_separator (a : str) (c : char) (b : str) :
  existsb sep a = false -> sep c = true ->
  splitBy sep (a ++ c :: b) = a :: splitBy sep b.
Proof.
  intros Ha Hc. induction a as [|x a IH]; simpl in *.
  - now rewrite Hc.
  - apply orb_false_iff in Ha as [Hx Ha]. now rewrite Hx, (IH Ha).
Qed.


End SplitFacts.

Lemma afterLast_absent (c : char) (s : str) :
  existsb (N.eqb c) s = false -> afterLast c s = s.
Proof.
  destruct s as [|x t]; [reflexivity|].
  cbn [existsb afterLast].
  intros H. apply orb_false_iff in H as [Hx Ht]. now rewrite Ht, Hx.
Qed.

(** [s.split(c).pop()] is the text after the last [c]. *)
Lemma last_split (c : char) (s : str) :
  last (split c s) [] = afterLast c s.
Proof.
  unfold split. induction s as [|x t IH]; [reflexivity|].
  cbn [splitBy afterLast].
  destruct (N.eqb c x) eqn:Hx.
  - destruct (splitBy (N.eqb c) t) as [|seg segs] eqn:E.
    + now apply splitBy_not_nil in E.
    + change (last ([] :: seg :: segs) []) with (last (seg :: segs) []).
      rewrite IH.
      destruct (existsb (N.eqb c) t) eqn:Ht; [reflexivity|].
      now apply afterLast_absent.
  - destruct (splitBy (N.eqb c) t) as [|seg segs] eqn:E.
    + now apply splitBy_not_nil in E.
    + destruct segs as [|seg2 segs].
      * apply splitBy_single in E as [Ht Hseg]. rewrite Hseg, Ht.
        reflexivity.
      * change (last ((x :: seg) :: seg2 :: segs) [])
          with (last (seg :: seg2 :: segs) []).
        rewrite IH.
        destruct (existsb (N.eqb c) t) eqn:Ht; [reflexivity|].
        apply splitBy_no_separator in Ht. rewrite Ht in E. discriminate E.
Qed.

Lemma absent_existsb (c : char) (s : str) :
  ~ In c s -> existsb (N.eqb c) s = false.
Proof.
  intros H. destruct (existsb (N.eqb c) s) eqn:E; [|reflexivity].
  apply existsb_exists in E as [x [Hin Hx]].
  apply N.eqb_eq in Hx. subst x. contradiction.
Qed.

Section ReplaceFacts.
Variable matchAt : str -> str -> option (nat * str).

(** Characters inside a match are passed over. *)
Lemma replaceFrom_skip (s pre : str) (k : nat) :
  length s <= k -> replaceFrom matchAt pre k s = [].
Proof.
  revert pre k; induction s as [|c s IH]; intros pre k Hk; [reflexivity|].
  simpl in Hk. destruct k as [|k]; [lia|].
  cbn [replaceFrom]. apply IH. lia.
Qed.

(** A match that covers the whole subject is replaced, and nothing
    else is produced. *)
Lemma replaceAll_whole_match (c : char) (s out : str) :
  matchAt [] (c :: s) = Some (S (length s), out) ->
  replaceAll matchAt (c :: s) = out.
Proof.
  intros H. unfold replaceAll. cbn [replaceFrom]. rewrite H.
  rewrite replaceFrom_skip by lia. apply app_nil_r.
Qed.

End ReplaceFacts.

(* ===================================================================== *)
(** ** Wikilinks *)
(* ===================================================================== *)

Module WikilinkFacts.

Section WithSettings.
Variable st : VaultLinterSettings.
Hypothesis enabled : safeWikilinkInsertion st = true.

Lemma normalizeWikilinkPath_no_pipe (a : str) :
  ~ In PIPE a ->
  WikilinkInserter.normalizeWikilinkPath st a
  = styledPath (wikilinkStyle st) (trim a).
Proof.
  intros Ha. apply absent_existsb in Ha.
  unfold WikilinkInserter.normalizeWikilinkPath, split.
  rewrite enabled, (splitBy_no_separator _ _ Ha). cbn [negb nth length Nat.ltb Nat.leb].
  fold (split SLASH (trim a)). rewrite last_split.
  unfold styledPath, shortestPath. now destruct (wikilinkStyle st).
Qed.

Lemma normalizeWikilinkPath_one_pipe (a b : str) :
  ~ In PIPE a -> ~ In PIPE b ->
  WikilinkInserter.normalizeWikilinkPath st (a ++ [PIPE] ++ b)
  = if isEmpty (trim b) then styledPath (wikilinkStyle st) (trim a)
    else styledPath (wikilinkStyle st) (trim a) ++ [PIPE] ++ trim b.
Proof.
  intros Ha Hb. apply absent_existsb in Ha, Hb.
  unfold WikilinkInserter.normalizeWikilinkPath, split.
  rewrite enabled.
  change (a ++ [PIPE] ++ b) with (a ++ PIPE :: b).
  rewrite (splitBy_at_separator _ _ _ b Ha (N.eqb_refl PIPE)).
  rewrite (splitBy_no_separator _ _ Hb).
  cbn [negb nth length Nat.ltb Nat.leb].
  fold (split SLASH (trim a)). rewrite last_split.
  unfold styledPath, shortestPath.
  destruct (trim b); destruct (wikilinkStyle st); reflexivity.
Qed.


(** The pattern matches a bracketed text that holds no closing
    bracket, and captures it. *)
Lemma matchWikilink_bracketed (inner rest : str) :
  inner <> [] -> forallb WikilinkInserter.notRBracket inner = true ->
  WikilinkInserter.matchWikilink
    (u "[[" ++ inner ++ u "]]" ++ rest)
  = Some (inner, length inner + 4).
Proof.
  intros Hne Hin.
  change (u "[[" ++ inner ++ u "]]" ++ rest)
    with (LBRACKET :: LBRACKET :: inner ++ RBRACKET :: RBRACKET :: rest).
  cbn [WikilinkInserter.matchWikilink]. rewrite N.eqb_refl. cbn [andb].
  rewrite takeWhile_all, dropWhile_cut by (assumption || reflexivity).
  destruct inner; [contradiction|]. reflexivity.
Qed.

Lemma normalize_single_link (inner : str) :
  inner <> [] -> forallb WikilinkInserter.notRBracket inner = true ->
  WikilinkInserter.normalize st (u "[[" ++ inner ++ u "]]")
  = u "[[" ++ WikilinkInserter.normalizeWikilinkPath st inner ++ u "]]".
Proof.
  intros Hne Hin. unfold WikilinkInserter.normalize. rewrite enabled.
  cbn [negb].
  change (u "[[" ++ inner ++ u "]]")
    with (LBRACKET :: (LBRACKET :: inner ++ u "]]")).
  apply replaceAll_whole_match.
  change (LBRACKET :: LBRACKET :: inner ++ u "]]")
    with (u "[[" ++ inner ++ u "]]").
  rewrite <- (app_nil_r (u "]]")) at 1.
  rewrite matchWikilink_bracketed by assumption.
  do 2 f_equal. cbn [length]. rewrite length_app. cbn [length u]. simpl. lia.
Qed.

End WithSettings.

Lemma In_dropWhile (p : char -> bool) (x : char) (s : str) :
  In x (dropWhile p s) -> In x s.
Proof.
  induction s as [|c s IH]; simpl; [tauto|].
  destruct (p c); simpl; tauto.
Qed.

Lemma In_trim (x : char) (s : str) : In x (trim s) -> In x s.
Proof.
  unfold trim, trimEnd, trimStart. intros H.
  apply in_rev, In_dropWhile, in_rev, In_dropWhile in H. exact H.
Qed.


Lemma In_stripMd (x : char) (s : str) : In x (stripMd s) -> In x s.
Proof.
  unfold stripMd. destruct (endsWith _ s); [|tauto].
  intros H. rewrite <- (firstn_skipn (length s - 3) s).
  apply in_or_app. now left.
Qed.


Lemma whitespace_not_pipe (w : str) :
  forallb isWhiteSpace w = true -> ~ In PIPE w.
Proof.
  intros H Hin. rewrite forallb_forall in H.
  specialize (H _ Hin). discriminate H.
Qed.

Lemma whitespace_not_bracket (w : str) :
  forallb isWhiteSpace w = true ->
  forallb WikilinkInserter.notRBracket w = true.
Proof.
  intros H. rewrite forallb_forall in *. intros x Hx.
  specialize (H _ Hx). unfold WikilinkInserter.notRBracket.
  destruct (N.eqb_spec x RBRACKET) as [->|]; [discriminate H|reflexivity].
Qed.

End WikilinkFacts.

(** C5, counterexample, on four counts: an empty alias is dropped
    with its pipe, the link path is trimmed as well, a link path that
    ends with a slash is kept whole, and the alias stops at the second
    pipe. *)
Lemma normalizeWikilinkPath_not_as_specified :
  WikilinkInserter.normalizeWikilinkPath DEFAULT_SETTINGS (u "Page|")
  <> spec_normalizeWikilinkPath DEFAULT_SETTINGS (u "Page|")
  /\ WikilinkInserter.normalizeWikilinkPath DEFAULT_SETTINGS (u " Page |x")
     <> spec_normalizeWikilinkPath DEFAULT_SETTINGS (u " Page |x")
  /\ WikilinkInserter.normalizeWikilinkPath DEFAULT_SETTINGS (u "Folder/")
     <> spec_normalizeWikilinkPath DEFAULT_SETTINGS (u "Folder/")
  /\ WikilinkInserter.normalizeWikilinkPath DEFAULT_SETTINGS (u "Page|x|y")
     <> spec_normalizeWikilinkPath DEFAULT_SETTINGS (u "Page|x|y").
Proof. repeat split; vm_compute; discriminate. Qed.

(** C5, amended: for an inner text with at most one pipe, the link
    path is the trimmed text before the pipe (the whole text, trimmed,
    when there is none) and the alias the trimmed text after it;
    'shortest' reduces the link path to what follows its last slash,
    unless nothing follows it, and strips a final [.md]; the result is
    the link path, a pipe and the alias when the alias is not empty,
    and the link path alone otherwise. *)
Theorem normalizeWikilinkPath_at_most_one_pipe
        (st : VaultLinterSettings) (a b : str) :
  safeWikilinkInsertion st = true ->
  ~ In PIPE a -> ~ In PIPE b ->
  WikilinkInserter.normalizeWikilinkPath st a
  = match wikilinkStyle st with
    | shortest =>
        stripMd (if isEmpty (afterLast SLASH (trim a)) then trim a
                 else afterLast SLASH (trim a))
    | _ => trim a
    end
  /\ WikilinkInserter.normalizeWikilinkPath st (a ++ [PIPE] ++ b)
     = if isEmpty (trim b)
       then WikilinkInserter.normalizeWikilinkPath st a
       else WikilinkInserter.normalizeWikilinkPath st a ++ [PIPE] ++ trim b.
Proof.
  intros Hon Ha Hb.
  rewrite WikilinkFacts.normalizeWikilinkPath_one_pipe by assumption.
  rewrite WikilinkFacts.normalizeWikilinkPath_no_pipe by assumption.
  split; [|reflexivity].
  unfold styledPath, shortestPath.
  now destruct (wikilinkStyle st).
Qed.

Lemma normalizeWikilinkPath_at_most_one_pipe_witness :
  WikilinkInserter.normalizeWikilinkPath DEFAULT_SETTINGS
    (u "Folder/Sub/Page.md")
  = u "Page"
  /\ WikilinkInserter.normalizeWikilinkPath DEFAULT_SETTINGS
       (u "Folder/Sub/Page.md|Alias")
     = u "Page|Alias".
Proof.
  destruct (normalizeWikilinkPath_at_most_one_pipe DEFAULT_SETTINGS
              (u "Folder/Sub/Page.md") (u "Alias")) as [H1 H2].
  - reflexivity.
  - cbn. unfold PIPE. intuition discriminate.
  - cbn. unfold PIPE. intuition discriminate.
  - split.
    + rewrite H1. reflexivity.
    + exact H2.
Defined.

(* ===================================================================== *)
(** ** Applying a rule twice *)
(* ===================================================================== *)

(** C2, on the code: under 'camelCase' the separators that mark the
    word boundaries are consumed by the first application, so the
    second one sees a single word and lowercases it. *)
Theorem normalizeTag_camelCase_twice :
  TagRules.normalizeTag (rt := AsciiCase) (TAGS_ONLY camelCase) (u "foo_bar")
  = u "fooBar"
  /\ TagRules.normalizeTag (rt := AsciiCase) (TAGS_ONLY camelCase)
       (TagRules.normalizeTag (rt := AsciiCase) (TAGS_ONLY camelCase)
          (u "foo_bar"))
     = u "foobar".
Proof. split; reflexivity. Qed.

(** C3, on the code: a carriage return in front of a CRLF pair makes a
    new CRLF pair once the old one is replaced, so [normalizeLineEndings]
    changes its own output, and [normalize] with it. *)
Theorem normalizeLineEndings_twice :
  FormattingNormalizer.normalizeLineEndings [CR; CR; LF] = [CR; LF]
  /\ FormattingNormalizer.normalizeLineEndings
       (FormattingNormalizer.normalizeLineEndings [CR; CR; LF]) = [LF]
  /\ FormattingNormalizer.normalize DEFAULT_SETTINGS
       (u "a" ++ [CR; CR; LF] ++ u "b")
     = u "a" ++ [CR; LF] ++ u "b" ++ [LF]
  /\ FormattingNormalizer.normalize DEFAULT_SETTINGS
       (FormattingNormalizer.normalize DEFAULT_SETTINGS
          (u "a" ++ [CR; CR; LF] ++ u "b"))
     = u "a" ++ [LF] ++ u "b" ++ [LF].
Proof. repeat split; reflexivity. Qed.

(** C1, on the code: with the default settings a second run of the
    pipeline changes the result of the first, on a doubled carriage
    return as on a doubled [.md]; with the 'camelCase' tag format it
    does so on any tag of two words. *)
Theorem pipeline_twice :
  NormalizationPipeline.normalize (rt := AsciiCase) DEFAULT_SETTINGS sample_now
    (NormalizationPipeline.normalize (rt := AsciiCase) DEFAULT_SETTINGS
       sample_now (u "a" ++ [CR; CR; LF] ++ u "b") (u "n.md")) (u "n.md")
  <> NormalizationPipeline.normalize (rt := AsciiCase) DEFAULT_SETTINGS
       sample_now (u "a" ++ [CR; CR; LF] ++ u "b") (u "n.md")
  /\ NormalizationPipeline.normalize (rt := AsciiCase) DEFAULT_SETTINGS sample_now
       (NormalizationPipeline.normalize (rt := AsciiCase) DEFAULT_SETTINGS
          sample_now (u "[[Page.md.md]]") (u "n.md")) (u "n.md")
     <> NormalizationPipeline.normalize (rt := AsciiCase) DEFAULT_SETTINGS
          sample_now (u "[[Page.md.md]]") (u "n.md")
  /\ NormalizationPipeline.normalize (rt := AsciiCase) (TAGS_ONLY camelCase)
       sample_now (u "#foo_bar") (u "n.md")
     = u "#fooBar"
  /\ NormalizationPipeline.normalize (rt := AsciiCase) (TAGS_ONLY camelCase)
       sample_now
       (NormalizationPipeline.normalize (rt := AsciiCase) (TAGS_ONLY camelCase)
          sample_now (u "#foo_bar") (u "n.md")) (u "n.md")
     = u "#foobar".
Proof.
  split; [vm_compute; discriminate|].
  split; [vm_compute; discriminate|].
  split; reflexivity.
Qed.

(* ===================================================================== *)
(** ** The rules that are idempotent *)
(* ===================================================================== *)

Section IdempotentRules.
Context {rt : CaseConv}.
Variable st : VaultLinterSettings.
Variable now : str.

(** X30: the frontmatter rule is idempotent: once a header is there,
    [enforce] leaves the content alone. *)
Lemma frontmatter_enforce_idempotent (S fileName : str) :
  FrontmatterEnforcer.enforce st now
    (FrontmatterEnforcer.enforce st now S fileName) fileName
  = FrontmatterEnforcer.enforce st now S fileName.
Proof.
  destruct (enforceFrontmatter st) eqn:He.
  - destruct (FrontmatterEnforcer.hasFrontmatter S) eqn:Hf.
    + now rewrite !(enforce_existing st now S fileName Hf).
    + apply enforce_existing.
      unfold FrontmatterEnforcer.enforce. rewrite He, Hf. cbn [negb].
      apply hasFrontmatter_startsWith, startsWith_app_r.
      now apply generateFrontmatter_startsWith.
  - unfold FrontmatterEnforcer.enforce. now rewrite He.
Qed.

Lemma dropWhile_idempotent (p : char -> bool) (s : str) :
  dropWhile p (dropWhile p s) = dropWhile p s.
Proof.
  induction s as [|c s IH]; [reflexivity|].
  cbn [dropWhile]. destruct (p c) eqn:Hc; [exact IH|].
  cbn [dropWhile]. now rewrite Hc.
Qed.

(** X29: [ensureTrailingNewline] is idempotent. *)
Lemma ensureTrailingNewline_idempotent (content : str) :
  FormattingNormalizer.ensureTrailingNewline st
    (FormattingNormalizer.ensureTrailingNewline st content)
  = FormattingNormalizer.ensureTrailingNewline st content.
Proof.
  unfold FormattingNormalizer.ensureTrailingNewline.
  destruct (endWithNewline st); cbn [negb]; [|reflexivity].
  rewrite rev_app_distr, rev_involutive.
  cbn [rev app dropWhile].
  change (isWhiteSpace LF) with true. cbn iota.
  now rewrite dropWhile_idempotent.
Qed.

(** The case transforms other than 'camelCase' are fixed points of
    themselves as soon as the case conversions of the runtime are. *)
Lemma normalizeTag_fixed_point (tag : str) :
  (forall s, toLowerCase (toLowerCase s) = toLowerCase s) ->
  (forall s, toUpperCase (toUpperCase s) = toUpperCase s) ->
  tagFormat st <> camelCase ->
  TagRules.normalizeTag st (TagRules.normalizeTag st tag)
  = TagRules.normalizeTag st tag.
Proof.
  intros Hlow Hup Hfmt. unfold TagRules.normalizeTag.
  destruct (enforceTagRules st); cbn [negb]; [|reflexivity].
  destruct (tagFormat st); auto. contradiction.
Qed.

End IdempotentRules.

(** Runs of line feeds. *)
Module BlankLines.
Import FormattingNormalizer.

Lemma collapse_pre (pre pre' : str) (skip : nat) (s : str) :
  collapse pre skip s = collapse pre' skip s.
Proof.
  unfold collapse.
  revert pre pre' skip; induction s as [|c s IH]; intros pre pre' skip;
    [reflexivity|].
  cbn [replaceFrom]. destruct skip as [|k].
  - destruct (matchRun (c :: s)) as [[len out]|].
    + f_equal. apply IH.
    + f_equal. apply IH.
  - apply IH.
Qed.

Lemma collapse_skip (pre : str) (skip : nat) (s : str) :
  collapse pre skip s = collapse [] 0 (skipn skip s).
Proof.
  revert pre skip; induction s as [|c s IH]; intros pre skip.
  - now destruct skip.
  - destruct skip as [|k].
    + apply collapse_pre.
    + cbn [skipn]. unfold collapse at 1. cbn [replaceFrom]. apply IH.
Qed.

Lemma skipn_takeWhile (p : char -> bool) (s : str) :
  skipn (length (takeWhile p s)) s = dropWhile p s.
Proof.
  induction s as [|c s IH]; [reflexivity|].
  cbn [takeWhile dropWhile]. destruct (p c); [exact IH|reflexivity].
Qed.

Lemma leadingLF_dropWhile (s : str) : leadingLF (dropWhile isLF s) = 0.
Proof.
  unfold leadingLF. induction s as [|c s IH]; [reflexivity|].
  cbn [dropWhile]. destruct (isLF c) eqn:Hc; [exact IH|].
  cbn [takeWhile]. now rewrite Hc.
Qed.

(** One step of the scan, from the start of a run. *)
Lemma collapse_step (c : char) (s : str) :
  collapse [] 0 (c :: s)
  = if 3 <=? leadingLF (c :: s)
    then [LF; LF] ++ collapse [] 0 (dropWhile isLF (c :: s))
    else c :: collapse [] 0 s.
Proof.
  unfold collapse at 1. cbn [replaceFrom]. unfold matchRun.
  fold (leadingLF (c :: s)).
  destruct (3 <=? leadingLF (c :: s)) eqn:E.
  - fold (collapse [c] (leadingLF (c :: s) - 1) s).
    rewrite collapse_skip. do 2 f_equal.
    rewrite <- skipn_takeWhile. fold (leadingLF (c :: s)).
    apply Nat.leb_le in E.
    destruct (leadingLF (c :: s)) as [|n]; [lia|].
    cbn [skipn]. now replace (S n - 1) with n by lia.
  - fold (collapse [c] 0 s). f_equal. apply collapse_pre.
Qed.

Lemma leadingLF_cons (c : char) (s : str) :
  leadingLF (c :: s) = if isLF c then S (leadingLF s) else 0.
Proof. unfold leadingLF. cbn [takeWhile]. now destruct (isLF c). Qed.

Lemma dropWhile_length (p : char -> bool) (s : str) :
  length (dropWhile p s) <= length s.
Proof.
  induction s as [|c s IH]; [reflexivity|].
  cbn [dropWhile]. destruct (p c); cbn [length]; lia.
Qed.

(** What the scan returns has no run of three, and starts with no
    more line feeds than its input, two at most. *)
Lemma collapse_invariant (n : nat) :
  forall s, length s <= n ->
    tripleFree (collapse [] 0 s) = true
    /\ leadingLF (collapse [] 0 s) <= Nat.min 2 (leadingLF s).
Proof.
  induction n as [|n IH]; intros s Hlen.
  - destruct s; [|simpl in Hlen; lia]. split; [reflexivity|]. cbn. lia.
  - destruct s as [|c s]; [split; [reflexivity|cbn; lia]|].
    cbn [length] in Hlen. rewrite collapse_step.
    destruct (3 <=? leadingLF (c :: s)) eqn:E.
    + apply Nat.leb_le in E.
      assert (Hd : length (dropWhile isLF (c :: s)) <= n).
      { rewrite leadingLF_cons in E. cbn [dropWhile].
        destruct (isLF c); [|lia].
        pose proof (dropWhile_length isLF s). lia. }
      destruct (IH _ Hd) as [Hfree Hlead].
      rewrite leadingLF_dropWhile in Hlead.
      assert (H0 : leadingLF (collapse [] 0 (dropWhile isLF (c :: s))) = 0)
        by lia.
      remember (leadingLF (c :: s)) as L eqn:HL.
      set (X := collapse [] 0 (dropWhile isLF (c :: s))) in *.
      assert (H2 : leadingLF ([LF; LF] ++ X) = 2).
      { cbn [app]. rewrite !leadingLF_cons.
        change (isLF LF) with true. cbn iota. now rewrite H0. }
      split; [|rewrite H2; lia].
      cbn [app tripleFree]. fold (app [LF; LF] X). rewrite H2.
      rewrite leadingLF_cons. change (isLF LF) with true. cbn iota.
      rewrite H0, Hfree. reflexivity.
    + apply Nat.leb_gt in E.
      destruct (IH s ltac:(lia)) as [Hfree Hlead].
      cbn [tripleFree]. rewrite Hfree, andb_true_r.
      rewrite !leadingLF_cons in *.
      destruct (isLF c).
      * split; [|lia].
        apply negb_true_iff, Nat.leb_gt. lia.
      * split; [reflexivity|lia].
Qed.

(** The scan changes nothing where there is no run of three. *)
Lemma collapse_tripleFree (s : str) :
  tripleFree s = true -> collapse [] 0 s = s.
Proof.
  induction s as [|c s IH]; [reflexivity|].
  cbn [tripleFree]. intros H. apply andb_true_iff in H as [Hc Hs].
  rewrite collapse_step. apply negb_true_iff in Hc. rewrite Hc.
  now rewrite (IH Hs).
Qed.

End BlankLines.

Lemma removeMultipleBlankLines_idempotent
      (st : VaultLinterSettings) (content : str) :
  FormattingNormalizer.removeMultipleBlankLines st
    (FormattingNormalizer.removeMultipleBlankLines st content)
  = FormattingNormalizer.removeMultipleBlankLines st content.
Proof.
  unfold FormattingNormalizer.removeMultipleBlankLines.
  destruct (removeMultipleBlankLines st); cbn [negb]; [|reflexivity].
  apply BlankLines.collapse_tripleFree.
  apply (BlankLines.collapse_invariant (length content) content (le_n _)).
Qed.

(** Without a header to insert the clock plays no part. *)
Lemma normalize_without_insertion {rt : CaseConv}
      (st : VaultLinterSettings) (now1 now2 content fileName : str) :
  enforceFrontmatter st = false
  \/ FrontmatterEnforcer.hasFrontmatter content = true ->
  NormalizationPipeline.normalize st now1 content fileName
  = NormalizationPipeline.normalize st now2 content fileName.
Proof.
  intros H. unfold NormalizationPipeline.normalize.
  replace (FrontmatterEnforcer.enforce st now1 content fileName)
    with (FrontmatterEnforcer.enforce st now2 content fileName);
    [reflexivity|].
  unfold FrontmatterEnforcer.enforce.
  destruct H as [H|H]; rewrite H; [reflexivity|].
  now destruct (negb (enforceFrontmatter st)).
Qed.

(* ===================================================================== *)
(** ** The scenarios of the specification *)
(* ===================================================================== *)

Example scenario_lowercase_tag :
  NormalizationPipeline.normalize (rt := AsciiCase) (TAGS_ONLY lowercase)
    sample_now (u "hello #MyTag world") (u "n.md")
  = u "hello #mytag world".
Proof. reflexivity. Qed.

Example scenario_blank_lines :
  NormalizationPipeline.normalize (rt := AsciiCase) FORMATTING_ONLY
    sample_now (u "line1" ++ [LF; LF; LF; LF] ++ u "line2") (u "n.md")
  = u "line1" ++ [LF; LF] ++ u "line2" ++ [LF].
Proof. reflexivity. Qed.

Example scenario_header :
  NormalizationPipeline.normalize (rt := AsciiCase) FRONTMATTER_ONLY
    sample_now (u "body") (u "My Note.md")
  = u "---" ++ [LF] ++ u "title: My Note" ++ [LF]
    ++ u "date: 2024-01-01" ++ [LF] ++ u "---" ++ [LF; LF] ++ u "body".
Proof. reflexivity. Qed.

Example scenario_shortest_link :
  NormalizationPipeline.normalize (rt := AsciiCase) (WIKILINKS_ONLY shortest)
    sample_now (u "[[Folder/Sub/Page.md|Alias]]") (u "n.md")
  = u "[[Page|Alias]]".
Proof. reflexivity. Qed.

Example scenario_generateId :
  FrontmatterEnforcer.generateId (rt := AsciiCase) (u "My Great Note!")
  = u "my-great-note".
Proof. reflexivity. Qed.

(** A title is a replacement string: its dollar patterns are expanded. *)
Example title_with_dollar_patterns :
  FrontmatterEnforcer.generateFrontmatter (rt := AsciiCase) FRONTMATTER_ONLY
    sample_now (u "$&x$$y.md")
  = u "---" ++ [LF] ++ u "title: {{title}}x$y" ++ [LF]
    ++ u "date: 2024-01-01" ++ [LF] ++ u "---".
Proof. reflexivity. Qed.

Example report_tally_sorted :
  Report.sortEntries
    (Report.countChangeTypes [changed_report; changed_report])
  = [(Report.frontmatter_added, 2); (Report.tags_normalized, 2)].
Proof. reflexivity. Qed.

(* ===================================================================== *)
(** ** The scan utilities: what every detector returns *)
(* ===================================================================== *)

Module ScanFacts.
Import Scan.

Lemma takeWhile_dropWhile (p : char -> bool) (s : str) :
  takeWhile p s ++ dropWhile p s = s.
Proof.
  induction s as [|c s IH]; [reflexivity|].
  cbn [takeWhile dropWhile]. destruct (p c); [|reflexivity].
  cbn [app]. now rewrite IH.
Qed.

Lemma takeWhile_length (p : char -> bool) (s : str) :
  length (takeWhile p s) + length (dropWhile p s) = length s.
Proof. now rewrite <- length_app, takeWhile_dropWhile. Qed.

Lemma startsWith_length (p s : str) :
  startsWith p s = true -> length p <= length s.
Proof.
  intros H. apply startsWith_true_split in H.
  rewrite H, length_app. lia.
Qed.

(** Where [indexOf] finds the pattern, the pattern is. *)
Lemma indexOf_Some (p s : str) (i : nat) :
  indexOf p s = Some i -> startsWith p (skipn i s) = true /\ i <= length s.
Proof.
  revert i; induction s as [|c s IH]; intros i H.
  - cbn [indexOf] in H. destruct (startsWith p []) eqn:E; [|discriminate H].
    injection H as <-. split; [exact E|reflexivity].
  - cbn [indexOf] in H. destruct (startsWith p (c :: s)) eqn:E.
    + injection H as <-. split; [exact E|cbn; lia].
    + destruct (indexOf p s) as [j|] eqn:Ej; [|discriminate H].
      injection H as <-. destruct (IH j eq_refl) as [Hs Hj].
      split; [exact Hs|cbn; lia].
Qed.

(** It finds the first occurrence. *)
Lemma indexOf_first (p s : str) (i j : nat) :
  indexOf p s = Some i -> j < i -> startsWith p (skipn j s) = false.
Proof.
  revert i j; induction s as [|c s IH]; intros i j H Hj.
  - cbn [indexOf] in H. destruct (startsWith p []); [|discriminate H].
    injection H as <-. lia.
  - cbn [indexOf] in H. destruct (startsWith p (c :: s)) eqn:E.
    + injection H as <-. lia.
    + destruct (indexOf p s) as [k|] eqn:Ek; [|discriminate H].
      injection H as <-. destruct j as [|j]; [exact E|].
      cbn [skipn]. apply (IH k j eq_refl). lia.
Qed.

Section Exec.
Variable kind : RangeType.
Variable matchLen : str -> str -> option nat.
Hypothesis match_bounds :
  forall pre s len, matchLen pre s = Some len -> 1 <= len <= length s.

(** The ranges of a scan resumed at offset [pos]: each one is a match
    of the pattern at its start, behind the characters passed over. *)
Lemma scanFrom_ranges (s pre : str) (pos skip : nat) :
  Forall
    (fun r =>
       pos + skip <= start r
       /\ start r < end_ r <= pos + length s
       /\ type r = kind
       /\ content r = firstn (end_ r - start r) (skipn (start r - pos) s)
       /\ matchLen (rev (firstn (start r - pos) s) ++ pre)
                   (skipn (start r - pos) s)
          = Some (end_ r - start r))
    (scanFrom kind matchLen pre pos skip s).
Proof.
  revert pre pos skip; induction s as [|c t IH]; intros pre pos skip;
    [constructor|].
  cbn [scanFrom]. destruct skip as [|k].
  - destruct (matchLen pre (c :: t)) as [len|] eqn:E.
    + pose proof (match_bounds _ _ _ E) as [Hlo Hhi]. cbn [length] in Hhi.
      constructor.
      * cbn [start end_ type content].
        replace (pos - pos) with 0 by lia.
        replace (pos + len - pos) with len by lia.
        cbn [skipn firstn rev app length].
        repeat split; try lia; try reflexivity. exact E.
      * eapply Forall_impl; [|apply (IH (c :: pre) (S pos) (len - 1))].
        intros r (H1 & H2 & H3 & H4 & H5). cbn [length].
        replace (start r - pos) with (S (start r - S pos)) by lia.
        cbn [skipn firstn rev]. rewrite <- app_assoc. cbn [app].
        repeat split; try lia; assumption.
    + eapply Forall_impl; [|apply (IH (c :: pre) (S pos) 0)].
      intros r (H1 & H2 & H3 & H4 & H5). cbn [length].
      replace (start r - pos) with (S (start r - S pos)) by lia.
      cbn [skipn firstn rev]. rewrite <- app_assoc. cbn [app].
      repeat split; try lia; assumption.
  - eapply Forall_impl; [|apply (IH (c :: pre) (S pos) k)].
    intros r (H1 & H2 & H3 & H4 & H5). cbn [length].
    replace (start r - pos) with (S (start r - S pos)) by lia.
    cbn [skipn firstn rev]. rewrite <- app_assoc. cbn [app].
    repeat split; try lia; assumption.
Qed.

Lemma scanFrom_in_order (s pre : str) (pos skip : nat) :
  rangesInOrder (scanFrom kind matchLen pre pos skip s).
Proof.
  unfold rangesInOrder.
  revert pre pos skip; induction s as [|c t IH]; intros pre pos skip;
    [constructor|].
  cbn [scanFrom]. destruct skip as [|k]; [|apply IH].
  destruct (matchLen pre (c :: t)) as [len|] eqn:E; [|apply IH].
  pose proof (match_bounds _ _ _ E) as [Hlo _].
  constructor; [apply IH|].
  eapply Forall_impl; [|apply (scanFrom_ranges t (c :: pre) (S pos) (len - 1))].
  intros r (H1 & _). cbn [end_]. lia.
Qed.

Lemma scan_within (content0 : str) :
  rangesWithin content0 (scan kind matchLen content0).
Proof.
  unfold rangesWithin, scan.
  eapply Forall_impl; [|apply (scanFrom_ranges content0 [] 0 0)].
  intros r (H1 & H2 & H3 & H4 & H5).
  rewrite Nat.sub_0_r in H4. cbn [Nat.add] in H2. now split.
Qed.

Lemma scan_types (content0 : str) :
  Forall (fun r => type r = kind) (scan kind matchLen content0).
Proof.
  unfold scan.
  eapply Forall_impl; [|apply (scanFrom_ranges content0 [] 0 0)].
  now intros r (H1 & H2 & H3 & H4 & H5).
Qed.

Lemma scan_matches (content0 : str) :
  Forall
    (fun r =>
       matchLen (rev (firstn (start r) content0)) (skipn (start r) content0)
       = Some (end_ r - start r))
    (scan kind matchLen content0).
Proof.
  unfold scan.
  eapply Forall_impl; [|apply (scanFrom_ranges content0 [] 0 0)].
  intros r (H1 & H2 & H3 & H4 & H5).
  now rewrite Nat.sub_0_r, app_nil_r in H5.
Qed.

End Exec.

(** The five patterns match at least one character and stay within
    the subject. *)
Lemma matchCodeBlock_bounds (s : str) (len : nat) :
  matchCodeBlock s = Some len -> 1 <= len <= length s.
Proof.
  unfold matchCodeBlock. destruct (startsWith (u "```") s) eqn:E;
    [|discriminate].
  destruct (indexOf (u "```") (skipn 3 s)) as [i|] eqn:Ei; [|discriminate].
  intros H. injection H as <-.
  apply indexOf_Some in Ei as [Hat Hi].
  apply startsWith_length in Hat. apply startsWith_length in E.
  rewrite !length_skipn in Hat. change (length (u "```")) with 3 in *.
  rewrite length_skipn in Hi. lia.
Qed.

Lemma matchInlineCode_bounds (s : str) (len : nat) :
  matchInlineCode s = Some len -> 1 <= len <= length s.
Proof.
  destruct s as [|c t]; [discriminate|]. cbn [matchInlineCode].
  destruct (N.eqb c BACKTICK); [|discriminate].
  destruct (takeWhile notBacktick t) eqn:Et; [discriminate|]. cbn [isEmpty].
  destruct (dropWhile notBacktick t) eqn:Ed; [discriminate|]. cbn [isEmpty].
  intros H. injection H as <-.
  pose proof (takeWhile_length notBacktick t) as Hl.
  rewrite Et, Ed in Hl. cbn [length] in *. lia.
Qed.

Lemma matchHeadingBody_bounds (j : nat) (rest : str) (n : nat) :
  j <= length rest ->
  matchHeadingBody j rest = Some n -> 1 <= n <= length rest.
Proof.
  induction j as [|j IH]; [discriminate|]. intros Hj.
  cbn [matchHeadingBody].
  destruct (takeWhile notLineTerminator (skipn (S j) rest)) eqn:Et.
  - cbn [isEmpty]. apply IH. lia.
  - cbn [isEmpty]. intros H. injection H as <-.
    pose proof (takeWhile_length notLineTerminator (skipn (S j) rest)) as Hl.
    rewrite Et, length_skipn in Hl. cbn [length] in *. lia.
Qed.

Lemma matchHeading_bounds (pre s : str) (len : nat) :
  matchHeading pre s = Some len -> 1 <= len <= length s.
Proof.
  unfold matchHeading. destruct (atLineStart pre); [|discriminate].
  destruct (_ && _)%bool; [|discriminate].
  destruct (matchHeadingBody _ _) as [n|] eqn:E; [|discriminate].
  intros H. injection H as <-.
  pose proof (takeWhile_length isHash s) as Hs.
  pose proof (takeWhile_length isWhiteSpace (dropWhile isHash s)) as Hw.
  apply matchHeadingBody_bounds in E; lia.
Qed.

Lemma matchWikilink_bounds (s inner : str) (len : nat) :
  WikilinkInserter.matchWikilink s = Some (inner, len) ->
  1 <= len <= length s
  /\ s = u "[[" ++ inner ++ u "]]" ++ skipn len s
  /\ inner <> []
  /\ forallb WikilinkInserter.notRBracket inner = true
  /\ len = length inner + 4.
Proof.
  destruct s as [|c1 [|c2 t]]; try discriminate.
  cbn [WikilinkInserter.matchWikilink].
  destruct (N.eqb_spec c1 LBRACKET) as [->|]; [|discriminate].
  destruct (N.eqb_spec c2 LBRACKET) as [->|]; [|discriminate].
  cbn [andb].
  destruct (takeWhile WikilinkInserter.notRBracket t) as [|x r] eqn:Et;
    [discriminate|]. cbn [isEmpty].
  destruct (startsWith _ (dropWhile WikilinkInserter.notRBracket t)) eqn:Es;
    [|discriminate].
  intros H. injection H as <- <-.
  pose proof (takeWhile_dropWhile WikilinkInserter.notRBracket t) as Ht.
  apply startsWith_true_split in Es.
  change (length [RBRACKET; RBRACKET]) with 2 in Es.
  rewrite Et in Ht.
  assert (Hall : forallb WikilinkInserter.notRBracket (x :: r) = true).
  { rewrite <- Et. clear. induction t as [|c t IH]; [reflexivity|].
    cbn [takeWhile]. destruct (WikilinkInserter.notRBracket c) eqn:Ec;
      [|reflexivity].
    cbn [forallb]. now rewrite Ec, IH. }
  set (D := dropWhile WikilinkInserter.notRBracket t) in *.
  assert (Hsk : skipn (length (x :: r) + 4) (LBRACKET :: LBRACKET :: t)
                = skipn 2 D).
  { replace (length (x :: r) + 4) with (S (S (length (x :: r) + 2))) by lia.
    cbn [skipn]. rewrite <- Ht.
    rewrite skipn_app, skipn_all2 by lia.
    replace (length (x :: r) + 2 - length (x :: r)) with 2 by lia.
    reflexivity. }
  assert (Hlen : length t = length (x :: r) + 2 + length (skipn 2 D)).
  { rewrite <- Ht, length_app. rewrite Es at 1.
    rewrite length_app. cbn [length]. lia. }
  repeat split.
  - cbn [length]. lia.
  - cbn [length] in *. lia.
  - change (S (length r + 4)) with (length (x :: r) + 4). rewrite Hsk.
    change (u "[[" ++ (x :: r) ++ u "]]" ++ skipn 2 D)
      with (LBRACKET :: LBRACKET
              :: (x :: r) ++ [RBRACKET; RBRACKET] ++ skipn 2 D).
    now rewrite <- Es, Ht.
  - discriminate.
  - exact Hall.
Qed.

Lemma takeWhile_forallb (p : char -> bool) (s : str) :
  forallb p (takeWhile p s) = true.
Proof.
  induction s as [|c s IH]; [reflexivity|].
  cbn [takeWhile]. destruct (p c) eqn:E; [|reflexivity].
  cbn [forallb]. now rewrite E, IH.
Qed.

Lemma matchTag_bounds (s tag0 : str) (len : nat) :
  TagRules.matchTag s = Some (tag0, len) ->
  1 <= len <= length s
  /\ firstn len s = HASH :: tag0
  /\ tag0 <> []
  /\ forallb TagRules.isTagChar tag0 = true.
Proof.
  destruct s as [|c t]; [discriminate|]. cbn [TagRules.matchTag].
  destruct (N.eqb_spec c HASH) as [->|]; [|discriminate].
  destruct (takeWhile TagRules.isTagChar t) as [|x r] eqn:Et;
    [discriminate|]. cbn [isEmpty].
  intros H. injection H as <- <-.
  pose proof (takeWhile_length TagRules.isTagChar t) as Hl.
  pose proof (takeWhile_dropWhile TagRules.isTagChar t) as Ht.
  pose proof (takeWhile_forallb TagRules.isTagChar t) as Hall.
  rewrite Et in *. repeat split.
  - cbn [length]. lia.
  - cbn [length] in *. lia.
  - change (1 + length (x :: r)) with (S (length (x :: r))).
    cbn [firstn]. f_equal.
    transitivity
      (firstn (length (x :: r)) ((x :: r) ++ dropWhile TagRules.isTagChar t)).
    + now rewrite Ht.
    + rewrite firstn_app, Nat.sub_diag, firstn_all. cbn [firstn].
      apply app_nil_r.
  - discriminate.
  - exact Hall.
Qed.

End ScanFacts.

Module DetectorFacts.
Import Scan ScanFacts.

Lemma wikilink_matcher_bounds (pre s : str) (len : nat) :
  option_map snd (WikilinkInserter.matchWikilink s) = Some len ->
  1 <= len <= length s.
Proof.
  destruct (WikilinkInserter.matchWikilink s) as [[inner n]|] eqn:E;
    [|discriminate].
  cbn [option_map snd]. intros H. injection H as <-.
  now apply matchWikilink_bounds in E.
Qed.

Lemma tag_matcher_bounds (pre s : str) (len : nat) :
  option_map snd (TagRules.matchTag s) = Some len -> 1 <= len <= length s.
Proof.
  destruct (TagRules.matchTag s) as [[tag0 n]|] eqn:E; [|discriminate].
  cbn [option_map snd]. intros H. injection H as <-.
  now apply matchTag_bounds in E.
Qed.

Lemma firstn_snoc (c : str) (k : nat) :
  k < length c -> firstn (S k) c = firstn k c ++ [nth k c 0%N].
Proof.
  revert k; induction c as [|x c IH]; intros k Hk; [cbn in Hk; lia|].
  destruct k as [|k]; [reflexivity|].
  cbn [length] in Hk. cbn [firstn nth app].
  f_equal. apply IH. lia.
Qed.

Lemma existsb_insertByStart (f : TextRange -> bool) (r : TextRange)
      (l : list TextRange) :
  existsb f (insertByStart r l) = (f r || existsb f l)%bool.
Proof.
  induction l as [|x l IH]; [reflexivity|].
  cbn [insertByStart]. destruct (start r <=? start x); [reflexivity|].
  cbn [existsb]. rewrite IH.
  destruct (f r), (f x); reflexivity.
Qed.

Lemma existsb_sortByStart (f : TextRange -> bool) (l : list TextRange) :
  existsb f (sortByStart l) = existsb f l.
Proof.
  induction l as [|x l IH]; [reflexivity|].
  cbn [sortByStart fold_right existsb].
  fold (sortByStart l). now rewrite existsb_insertByStart, IH.
Qed.

Lemma insertByStart_perm (r : TextRange) (l : list TextRange) :
  Permutation (r :: l) (insertByStart r l).
Proof.
  induction l as [|x l IH]; [reflexivity|].
  cbn [insertByStart]. destruct (start r <=? start x); [reflexivity|].
  rewrite perm_swap. now constructor.
Qed.

Lemma sortByStart_perm (l : list TextRange) : Permutation l (sortByStart l).
Proof.
  induction l as [|x l IH]; [reflexivity|].
  cbn [sortByStart fold_right]. fold (sortByStart l).
  rewrite <- insertByStart_perm. now constructor.
Qed.

Lemma insertByStart_sorted (r : TextRange) (l : list TextRange) :
  sortedByStart l -> sortedByStart (insertByStart r l).
Proof.
  unfold sortedByStart. induction l as [|x l IH]; intros Hs.
  - repeat constructor.
  - cbn [insertByStart]. destruct (Nat.leb_spec (start r) (start x)).
    + constructor; [exact Hs|].
      apply StronglySorted_inv in Hs as [_ Hx].
      constructor; [assumption|].
      eapply Forall_impl; [|exact Hx]. cbn beta. intros; lia.
    + apply StronglySorted_inv in Hs as [Hl Hx].
      constructor; [now apply IH|].
      apply (Permutation_Forall (insertByStart_perm r l)).
      constructor; [lia|exact Hx].
Qed.

Lemma sortByStart_sorted (l : list TextRange) : sortedByStart (sortByStart l).
Proof.
  induction l as [|x l IH]; [constructor|].
  cbn [sortByStart fold_right]. fold (sortByStart l).
  now apply insertByStart_sorted.
Qed.

End DetectorFacts.

(** X1: the code block and inline code detectors return non-empty
    ranges that lie within the content, carry the text between their
    offsets, come in order and do not overlap. *)
Theorem detect_code_well_scanned (content : str) :
  wellScanned content (Scan.detectCodeBlocks content)
  /\ wellScanned content (Scan.detectInlineCode content).
Proof.
  split; split.
  - apply ScanFacts.scan_within. intros _ s len.
    apply ScanFacts.matchCodeBlock_bounds.
  - apply ScanFacts.scanFrom_in_order. intros _ s len.
    apply ScanFacts.matchCodeBlock_bounds.
  - apply ScanFacts.scan_within. intros _ s len.
    apply ScanFacts.matchInlineCode_bounds.
  - apply ScanFacts.scanFrom_in_order. intros _ s len.
    apply ScanFacts.matchInlineCode_bounds.
Qed.

(** X2: so do the wikilink and tag detectors. *)
Theorem detect_tokens_well_scanned (content : str) :
  wellScanned content (Scan.detectWikilinks content)
  /\ wellScanned content (Scan.detectTags content).
Proof.
  split; split.
  - apply ScanFacts.scan_within. apply DetectorFacts.wikilink_matcher_bounds.
  - apply ScanFacts.scanFrom_in_order.
    apply DetectorFacts.wikilink_matcher_bounds.
  - apply ScanFacts.scan_within. apply DetectorFacts.tag_matcher_bounds.
  - apply ScanFacts.scanFrom_in_order. apply DetectorFacts.tag_matcher_bounds.
Qed.

(** X3: so does the heading detector, and each heading it reports
    starts at the beginning of the content or right behind a line
    terminator, with a hash sign. *)
Theorem detect_headings_well_scanned (content : str) :
  wellScanned content (Scan.detectHeadings content)
  /\ Forall
       (fun r =>
          (Scan.start r = 0
           \/ exists k, Scan.start r = S k
                        /\ Scan.isLineTerminator (nth k content 0%N) = true)
          /\ startsWith [HASH] (Scan.content r) = true)
       (Scan.detectHeadings content).
Proof.
  split; [split|].
  - apply ScanFacts.scan_within. apply ScanFacts.matchHeading_bounds.
  - apply ScanFacts.scanFrom_in_order. apply ScanFacts.matchHeading_bounds.
  - pose proof (ScanFacts.scan_within Scan.heading Scan.matchHeading
                  ScanFacts.matchHeading_bounds content) as Hw.
    pose proof (ScanFacts.scan_matches Scan.heading Scan.matchHeading
                  ScanFacts.matchHeading_bounds content) as Hm.
    unfold rangesWithin in Hw. unfold Scan.detectHeadings.
    rewrite Forall_forall in *. intros r Hr.
    specialize (Hw r Hr) as [[Hlt Hle] Hc]. specialize (Hm r Hr).
    unfold Scan.matchHeading in Hm.
    destruct (Scan.atLineStart (rev (firstn (Scan.start r) content))) eqn:Ea;
      [|discriminate Hm].
    destruct (_ && _)%bool eqn:Eh; [|discriminate Hm].
    split.
    + destruct (Scan.start r) as [|k] eqn:Es; [now left|]. right.
      exists k. split; [reflexivity|].
      rewrite DetectorFacts.firstn_snoc in Ea by lia.
      rewrite rev_app_distr in Ea. exact Ea.
    + rewrite Hc. apply andb_true_iff in Eh as [Eh _].
      apply Nat.leb_le in Eh.
      destruct (skipn (Scan.start r) content) as [|c t] eqn:Ek;
        [cbn in Eh; lia|].
      cbn [takeWhile] in Eh. destruct (Scan.isHash c) eqn:Ec;
        [|cbn in Eh; lia].
      apply N.eqb_eq in Ec. subst c.
      destruct (Scan.end_ r - Scan.start r) eqn:En; [lia|].
      reflexivity.
Qed.

(** X4: the protected ranges are the code blocks and the inline code
    spans, each of them once, sorted by their start. *)
Theorem getProtectedRanges_sorted (content : str) :
  Permutation (Scan.detectCodeBlocks content ++ Scan.detectInlineCode content)
              (Scan.getProtectedRanges content)
  /\ sortedByStart (Scan.getProtectedRanges content)
  /\ rangesWithin content (Scan.getProtectedRanges content).
Proof.
  split; [apply DetectorFacts.sortByStart_perm|].
  split; [apply DetectorFacts.sortByStart_sorted|].
  unfold rangesWithin.
  apply (Permutation_Forall (DetectorFacts.sortByStart_perm _)).
  apply Forall_app. split.
  - apply ScanFacts.scan_within. intros _ s len.
    apply ScanFacts.matchCodeBlock_bounds.
  - apply ScanFacts.scan_within. intros _ s len.
    apply ScanFacts.matchInlineCode_bounds.
Qed.

(** X5: a position is inside a protected range exactly when it is
    inside a code block or inside an inline code span. *)
Theorem isInRange_protected (position : nat) (content : str) :
  Scan.isInRange position (Scan.getProtectedRanges content)
  = (Scan.isInRange position (Scan.detectCodeBlocks content)
     || Scan.isInRange position (Scan.detectInlineCode content))%bool.
Proof.
  unfold Scan.isInRange, Scan.getProtectedRanges.
  now rewrite DetectorFacts.existsb_sortByStart, existsb_app.
Qed.

(* ===================================================================== *)
(** ** Scanning and replacing *)
(* ===================================================================== *)

Module ReplaceFacts2.

Section Generic.
Variable matchAt : str -> str -> option (nat * str).

(** A replacement that puts back what was matched changes nothing. *)
Lemma replaceFrom_same_text (s pre : str) (k : nat) :
  (forall pre s len out,
      matchAt pre s = Some (len, out) ->
      1 <= len <= length s /\ out = firstn len s) ->
  k <= length s ->
  replaceFrom matchAt pre k s = skipn k s.
Proof.
  intros Hsame.
  revert pre k; induction s as [|c t IH]; intros pre k Hk.
  - now destruct k.
  - cbn [replaceFrom]. destruct k as [|k].
    + destruct (matchAt pre (c :: t)) as [[len out]|] eqn:E.
      * destruct (Hsame _ _ _ _ E) as [[Hlo Hhi] ->]. cbn [length] in Hhi.
        rewrite IH by lia.
        destruct len as [|len]; [lia|]. cbn [firstn skipn app].
        replace (S len - 1) with len by lia.
        now rewrite firstn_skipn.
      * cbn [skipn]. f_equal. apply (IH (c :: pre) 0). lia.
    + cbn [skipn length] in *. apply IH. lia.
Qed.

(** Where the scan with the same pattern finds nothing, nothing is
    replaced. *)
Lemma replaceFrom_nothing_found
      (kind : Scan.RangeType) (matchLen : str -> str -> option nat)
      (s pre : str) (pos : nat) :
  (forall pre s, matchLen pre s = None -> matchAt pre s = None) ->
  Scan.scanFrom kind matchLen pre pos 0 s = [] ->
  replaceFrom matchAt pre 0 s = s.
Proof.
  intros Hnone.
  revert pre pos; induction s as [|c t IH]; intros pre pos Hscan;
    [reflexivity|].
  cbn [Scan.scanFrom] in Hscan. cbn [replaceFrom].
  destruct (matchLen pre (c :: t)) as [len|] eqn:E; [discriminate Hscan|].
  rewrite (Hnone _ _ E). f_equal. now apply (IH _ (S pos)).
Qed.

End Generic.

Lemma extractTagsFrom_contents (s pre : str) (pos skip : nat) :
  map Scan.content
      (Scan.scanFrom Scan.tag
         (fun _ s => option_map snd (TagRules.matchTag s)) pre pos skip s)
  = map (cons HASH) (TagRules.extractTagsFrom skip s).
Proof.
  revert pre pos skip; induction s as [|c t IH]; intros pre pos skip;
    [reflexivity|].
  cbn [Scan.scanFrom TagRules.extractTagsFrom]. destruct skip as [|k];
    [|apply IH].
  destruct (TagRules.matchTag (c :: t)) as [[tag0 len]|] eqn:E;
    cbn [option_map snd]; [|apply IH].
  apply ScanFacts.matchTag_bounds in E as (_ & Hfirst & _).
  cbn [map Scan.content]. now rewrite Hfirst, IH.
Qed.

Lemma extractWikilinksFrom_contents (s pre : str) (pos skip : nat) :
  map Scan.content
      (Scan.scanFrom Scan.wikilink
         (fun _ s => option_map snd (WikilinkInserter.matchWikilink s))
         pre pos skip s)
  = map (fun inner => u "[[" ++ inner ++ u "]]")
        (WikilinkInserter.extractWikilinksFrom skip s).
Proof.
  revert pre pos skip; induction s as [|c t IH]; intros pre pos skip;
    [reflexivity|].
  cbn [Scan.scanFrom WikilinkInserter.extractWikilinksFrom].
  destruct skip as [|k]; [|apply IH].
  destruct (WikilinkInserter.matchWikilink (c :: t)) as [[inner len]|] eqn:E;
    cbn [option_map snd]; [|apply IH].
  apply ScanFacts.matchWikilink_bounds in E as (_ & Hs & _ & _ & Hlen).
  cbn [map Scan.content]. rewrite IH. f_equal.
  rewrite Hs at 1. subst len.
  rewrite !app_assoc.
  rewrite firstn_app.
  replace (length inner + 4 - length ((u "[[" ++ inner) ++ u "]]")) with 0
    by (rewrite !length_app; cbn [length u]; simpl; lia).
  rewrite firstn_all2
    by (rewrite !length_app; cbn [length u]; simpl; lia).
  cbn [firstn]. now rewrite app_nil_r.
Qed.

Lemma extractTagsFrom_tokens (s : str) (skip : nat) :
  Forall (fun t => t <> [] /\ forallb TagRules.isTagChar t = true)
         (TagRules.extractTagsFrom skip s).
Proof.
  revert skip; induction s as [|c t IH]; intros skip; [constructor|].
  cbn [TagRules.extractTagsFrom]. destruct skip as [|k]; [|apply IH].
  destruct (TagRules.matchTag (c :: t)) as [[tag0 len]|] eqn:E; [|apply IH].
  apply ScanFacts.matchTag_bounds in E as (_ & _ & Hne & Hall).
  constructor; [now split | apply IH].
Qed.

Lemma extractWikilinksFrom_tokens (s : str) (skip : nat) :
  Forall (fun inner => inner <> [] /\ ~ In RBRACKET inner)
         (WikilinkInserter.extractWikilinksFrom skip s).
Proof.
  revert skip; induction s as [|c t IH]; intros skip; [constructor|].
  cbn [WikilinkInserter.extractWikilinksFrom].
  destruct skip as [|k]; [|apply IH].
  destruct (WikilinkInserter.matchWikilink (c :: t)) as [[inner len]|] eqn:E;
    [|apply IH].
  apply ScanFacts.matchWikilink_bounds in E as (_ & _ & Hne & Hall & _).
  constructor; [|apply IH]. split; [exact Hne|].
  intros Hin. rewrite forallb_forall in Hall. specialize (Hall _ Hin).
  discriminate Hall.
Qed.

End ReplaceFacts2.

(** X6: the texts the tag and wikilink detectors report are the
    tokens [extractTags] and [extractWikilinks] return, with their
    delimiters, in the same order. *)
Theorem detected_texts_are_extracted_tokens (content : str) :
  map Scan.content (Scan.detectTags content)
  = map (cons HASH) (TagRules.extractTags content)
  /\ map Scan.content (Scan.detectWikilinks content)
     = map (fun inner => u "[[" ++ inner ++ u "]]")
           (WikilinkInserter.extractWikilinks content).
Proof.
  split.
  - apply ReplaceFacts2.extractTagsFrom_contents.
  - apply ReplaceFacts2.extractWikilinksFrom_contents.
Qed.

(** X7: every extracted tag is a non-empty run of tag characters;
    every extracted wikilink text is non-empty and holds no closing
    bracket. *)
Theorem extracted_tokens_well_formed (content : str) :
  Forall (fun t => t <> [] /\ forallb TagRules.isTagChar t = true)
         (TagRules.extractTags content)
  /\ Forall (fun inner => inner <> [] /\ ~ In RBRACKET inner)
            (WikilinkInserter.extractWikilinks content).
Proof.
  split.
  - apply ReplaceFacts2.extractTagsFrom_tokens.
  - apply ReplaceFacts2.extractWikilinksFrom_tokens.
Qed.

(** X8: content in which the scanner finds no tag is left as it is by
    the tag rules, whatever the format. *)
Theorem tags_enforce_without_tags {rt : CaseConv}
        (st : VaultLinterSettings) (content : str) :
  Scan.detectTags content = [] ->
  TagRules.enforce st content = content.
Proof.
  intros Hnone. unfold TagRules.enforce.
  destruct (negb (enforceTagRules st)); [reflexivity|].
  apply (ReplaceFacts2.replaceFrom_nothing_found _ Scan.tag
           (fun _ s => option_map snd (TagRules.matchTag s)) content [] 0);
    [|exact Hnone].
  intros _ s H. destruct (TagRules.matchTag s) as [[tag0 len]|];
    [discriminate H|reflexivity].
Qed.

Lemma tags_enforce_without_tags_witness :
  TagRules.enforce (rt := AsciiCase) (TAGS_ONLY uppercase)
    (u "no tag here: # alone, C# too")
  = u "no tag here: # alone, C# too".
Proof.
  apply (@tags_enforce_without_tags AsciiCase (TAGS_ONLY uppercase)
           (u "no tag here: # alone, C# too")).
  reflexivity.
Defined.

(** X9: content in which the scanner finds no wikilink is left as it
    is by the wikilink rule. *)
Theorem wikilinks_normalize_without_links
        (st : VaultLinterSettings) (content : str) :
  Scan.detectWikilinks content = [] ->
  WikilinkInserter.normalize st content = content.
Proof.
  intros Hnone. unfold WikilinkInserter.normalize.
  destruct (negb (safeWikilinkInsertion st)); [reflexivity|].
  apply (ReplaceFacts2.replaceFrom_nothing_found _ Scan.wikilink
           (fun _ s => option_map snd (WikilinkInserter.matchWikilink s))
           content [] 0);
    [|exact Hnone].
  intros _ s H. destruct (WikilinkInserter.matchWikilink s) as [[inner len]|];
    [discriminate H|reflexivity].
Qed.

Lemma wikilinks_normalize_without_links_witness :
  WikilinkInserter.normalize DEFAULT_SETTINGS (u "[[]] [a/b.md] [[open")
  = u "[[]] [a/b.md] [[open".
Proof.
  apply (wikilinks_normalize_without_links DEFAULT_SETTINGS
           (u "[[]] [a/b.md] [[open")).
  reflexivity.
Defined.

(** X10: with the format 'none' the tag rules, though enabled, return
    the content unchanged. *)
Theorem tags_enforce_format_none {rt : CaseConv}
        (st : VaultLinterSettings) (content : str) :
  tagFormat st = none ->
  TagRules.enforce st content = content.
Proof.
  intros Hfmt. unfold TagRules.enforce.
  destruct (enforceTagRules st) eqn:Hon; cbn [negb]; [|reflexivity].
  unfold replaceAll.
  rewrite ReplaceFacts2.replaceFrom_same_text; [reflexivity| |cbn; lia].
  intros _ s len out H.
  destruct (TagRules.matchTag s) as [[tag0 n]|] eqn:E; [|discriminate H].
  injection H as <- <-.
  apply ScanFacts.matchTag_bounds in E as (Hb & Hfirst & _).
  split; [exact Hb|].
  unfold TagRules.normalizeTag. rewrite Hon, Hfmt. cbn [negb].
  now rewrite Hfirst.
Qed.

Lemma tags_enforce_format_none_witness :
  TagRules.enforce (rt := AsciiCase) (TAGS_ONLY none) (u "a #My_Tag b #x/Y")
  = u "a #My_Tag b #x/Y".
Proof.
  apply (@tags_enforce_format_none AsciiCase (TAGS_ONLY none)
           (u "a #My_Tag b #x/Y")).
  reflexivity.
Defined.

(* ===================================================================== *)
(** ** Frontmatter: extraction, generation, identifiers *)
(* ===================================================================== *)

Module FrontmatterFacts2.
Import ScanFacts.

Lemma endsWith_app (p s : str) : endsWith p (s ++ p) = true.
Proof.
  unfold endsWith. rewrite rev_app_distr. apply startsWith_refl_app.
Qed.

(** [indexOf] returns the first position where the pattern is. *)
Lemma indexOf_at (p s : str) (n : nat) :
  (forall j, j < n -> startsWith p (skipn j s) = false) ->
  startsWith p (skipn n s) = true ->
  n <= length s ->
  indexOf p s = Some n.
Proof.
  revert n; induction s as [|c s IH]; intros n Hbefore Hat Hn.
  - cbn [length] in Hn. assert (n = 0) by lia. subst n.
    cbn [skipn] in Hat. cbn [indexOf]. now rewrite Hat.
  - destruct n as [|n].
    + cbn [skipn] in Hat. cbn [indexOf]. now rewrite Hat.
    + cbn [indexOf].
      pose proof (Hbefore 0 ltac:(lia)) as H0. cbn [skipn] in H0.
      rewrite H0.
      rewrite (IH n); [reflexivity| |exact Hat|cbn [length] in Hn; lia].
      intros j Hj. apply (Hbefore (S j)). lia.
Qed.

(** The closing delimiter cannot begin inside a text that does not
    hold it and end behind that text: its first character is the only
    line feed it has. *)
Lemma no_delimiter_across (fm rest : str) (j : nat) :
  (forall a b, fm <> a ++ DELIMITER ++ b) ->
  j < length fm ->
  startsWith DELIMITER (skipn j (fm ++ DELIMITER ++ rest)) = false.
Proof.
  intros Hfree Hj.
  rewrite skipn_app. replace (j - length fm) with 0 by lia. cbn [skipn].
  pose proof (firstn_skipn j fm) as Hfm.
  assert (Hlen : length (skipn j fm) = length fm - j) by apply length_skipn.
  destruct (skipn j fm) as [|x1 f] eqn:Ef; [cbn [length] in Hlen; lia|].
  destruct (startsWith DELIMITER ((x1 :: f) ++ DELIMITER ++ rest)) eqn:E;
    [|reflexivity].
  exfalso. unfold DELIMITER in E.
  change (u "---") with [HYPHEN; HYPHEN; HYPHEN] in E.
  destruct f as [|x2 [|x3 [|x4 f]]]; cbn [app startsWith] in E.
  - apply andb_true_iff in E as [_ E]. apply andb_true_iff in E as [E _].
    discriminate E.
  - apply andb_true_iff in E as [_ E]. apply andb_true_iff in E as [_ E].
    apply andb_true_iff in E as [E _]. discriminate E.
  - apply andb_true_iff in E as [_ E]. apply andb_true_iff in E as [_ E].
    apply andb_true_iff in E as [_ E]. apply andb_true_iff in E as [E _].
    discriminate E.
  - apply andb_true_iff in E as [E1 E]. apply andb_true_iff in E as [E2 E].
    apply andb_true_iff in E as [E3 E]. apply andb_true_iff in E as [E4 _].
    apply N.eqb_eq in E1, E2, E3, E4. subst x1 x2 x3 x4.
    apply (Hfree (firstn j fm) f). now rewrite <- Hfm at 1.
Qed.

Lemma extract_some (content fm body : str) :
  FrontmatterEnforcer.extractFrontmatter content = Some (fm, body) ->
  trimStart content = u "---" ++ fm ++ DELIMITER ++ body
  /\ forall a b, fm <> a ++ DELIMITER ++ b.
Proof.
  unfold FrontmatterEnforcer.extractFrontmatter.
  destruct (startsWith (u "---") (trimStart content)) eqn:Es;
    cbn [negb]; [|discriminate].
  fold DELIMITER. unfold sliceFrom, sliceTo.
  set (af := skipn 3 (trimStart content)).
  destruct (indexOf DELIMITER af) as [i|] eqn:Ei; [|discriminate].
  intros H. injection H as <- <-.
  pose proof (indexOf_Some _ _ _ Ei) as [Hat Hi].
  apply startsWith_true_split in Es. change (length (u "---")) with 3 in Es.
  fold af in Es.
  apply startsWith_true_split in Hat. change (length DELIMITER) with 4 in Hat.
  rewrite skipn_skipn in Hat.
  split.
  - rewrite Es at 1. f_equal.
    rewrite <- (firstn_skipn i af) at 1. f_equal.
    replace (i + 4) with (4 + i) by lia. exact Hat.
  - intros a b Hab.
    assert (Hfm : length (firstn i af) = i) by (apply firstn_length_le; lia).
    assert (Ha : length a < i).
    { rewrite <- Hfm, Hab, !length_app. cbn [length DELIMITER u]. simpl. lia. }
    pose proof (indexOf_first _ _ _ (length a) Ei Ha) as Hno.
    rewrite <- (firstn_skipn i af) in Hno. rewrite Hab in Hno.
    rewrite <- !app_assoc in Hno.
    rewrite skipn_app, skipn_all, Nat.sub_diag in Hno. cbn [skipn app] in Hno.
    rewrite startsWith_refl_app in Hno. discriminate Hno.
Qed.

Lemma extract_built (w fm body : str) :
  forallb isWhiteSpace w = true ->
  (forall a b, fm <> a ++ DELIMITER ++ b) ->
  FrontmatterEnforcer.extractFrontmatter
    (w ++ u "---" ++ fm ++ DELIMITER ++ body)
  = Some (fm, body).
Proof.
  intros Hw Hfree. unfold FrontmatterEnforcer.extractFrontmatter.
  rewrite trimStart_whitespace by assumption.
  replace (trimStart (u "---" ++ fm ++ DELIMITER ++ body))
    with (u "---" ++ fm ++ DELIMITER ++ body)
    by (symmetry; apply dropWhile_stop; reflexivity).
  rewrite startsWith_refl_app. cbn [negb].
  change (sliceFrom 3 (u "---" ++ fm ++ DELIMITER ++ body))
    with (fm ++ DELIMITER ++ body).
  fold DELIMITER.
  rewrite (indexOf_at DELIMITER (fm ++ DELIMITER ++ body) (length fm)).
  - unfold sliceTo, sliceFrom. f_equal. f_equal.
    + rewrite firstn_app, Nat.sub_diag, firstn_all. cbn [firstn].
      apply app_nil_r.
    + rewrite skipn_app, skipn_all2 by lia.
      replace (length fm + 4 - length fm) with 4 by lia. reflexivity.
  - intros j Hj. now apply no_delimiter_across.
  - rewrite skipn_app, skipn_all, Nat.sub_diag. cbn [skipn app].
    apply startsWith_refl_app.
  - rewrite length_app. lia.
Qed.

End FrontmatterFacts2.

(** X11: what [extractFrontmatter] returns puts the content back
    together: behind its leading whitespace the content is the opening
    delimiter, the header, a line feed with the closing delimiter, and
    the body; and the header holds no closing delimiter. *)
Theorem extractFrontmatter_sound (content fm body : str) :
  FrontmatterEnforcer.extractFrontmatter content = Some (fm, body) ->
  trimStart content = u "---" ++ fm ++ (LF :: u "---") ++ body
  /\ forall a b, fm <> a ++ (LF :: u "---") ++ b.
Proof. apply FrontmatterFacts2.extract_some. Qed.

Lemma extractFrontmatter_sound_witness :
  trimStart ([LF] ++ u "---" ++ [LF] ++ u "title: x" ++ [LF] ++ u "---"
             ++ [LF] ++ u "body")
  = u "---" ++ ([LF] ++ u "title: x") ++ (LF :: u "---") ++ ([LF] ++ u "body")
  /\ forall a b, [LF] ++ u "title: x" <> a ++ (LF :: u "---") ++ b.
Proof.
  apply (extractFrontmatter_sound
           ([LF] ++ u "---" ++ [LF] ++ u "title: x" ++ [LF] ++ u "---"
            ++ [LF] ++ u "body")
           ([LF] ++ u "title: x") ([LF] ++ u "body")).
  reflexivity.
Defined.

(** X12: conversely, from content made of whitespace, the opening
    delimiter, a header that holds no closing delimiter, a line feed
    with the closing delimiter and a body, [extractFrontmatter]
    returns that header and that body. *)
Theorem extractFrontmatter_complete (w fm body : str) :
  forallb isWhiteSpace w = true ->
  (forall a b, fm <> a ++ (LF :: u "---") ++ b) ->
  FrontmatterEnforcer.extractFrontmatter
    (w ++ u "---" ++ fm ++ (LF :: u "---") ++ body)
  = Some (fm, body).
Proof. apply FrontmatterFacts2.extract_built. Qed.

Lemma extractFrontmatter_complete_witness :
  FrontmatterEnforcer.extractFrontmatter
    ([SPACE] ++ u "---" ++ ([LF] ++ u "tags:" ++ [LF] ++ u "- a")
     ++ (LF :: u "---") ++ ([LF] ++ u "body"))
  = Some ([LF] ++ u "tags:" ++ [LF] ++ u "- a", [LF] ++ u "body").
Proof.
  apply (extractFrontmatter_complete [SPACE]
           ([LF] ++ u "tags:" ++ [LF] ++ u "- a") ([LF] ++ u "body")).
  - reflexivity.
  - apply indexOf_None_inv. reflexivity.
Defined.

(** X13: the generated header starts and ends with the delimiter
    whatever the template; with enforcement off it is empty. *)
Theorem generateFrontmatter_delimited {rt : CaseConv}
        (st : VaultLinterSettings) (now fileName : str) :
  (enforceFrontmatter st = true ->
   startsWith (u "---")
     (FrontmatterEnforcer.generateFrontmatter st now fileName) = true
   /\ endsWith (u "---")
        (FrontmatterEnforcer.generateFrontmatter st now fileName) = true)
  /\ (enforceFrontmatter st = false ->
      FrontmatterEnforcer.generateFrontmatter st now fileName = []).
Proof.
  split; intros He.
  - split; [now apply generateFrontmatter_startsWith|].
    unfold FrontmatterEnforcer.generateFrontmatter. rewrite He.
    cbn [negb]. cbv zeta.
    match goal with
    | |- endsWith _ (if negb (endsWith _ ?x) then _ else _) = true =>
        destruct (endsWith (u "---") x) eqn:E; cbn [negb]
    end.
    + exact E.
    + rewrite app_assoc. apply FrontmatterFacts2.endsWith_app.
  - unfold FrontmatterEnforcer.generateFrontmatter. now rewrite He.
Qed.

Lemma generateFrontmatter_delimited_witness :
  FrontmatterEnforcer.generateFrontmatter (rt := AsciiCase)
    (TAGS_ONLY none) sample_now (u "n.md") = []
  /\ startsWith (u "---")
       (FrontmatterEnforcer.generateFrontmatter (rt := AsciiCase)
          DEFAULT_SETTINGS sample_now (u "n.md")) = true
  /\ endsWith (u "---")
       (FrontmatterEnforcer.generateFrontmatter (rt := AsciiCase)
          DEFAULT_SETTINGS sample_now (u "n.md")) = true.
Proof.
  split.
  - apply (proj2 (@generateFrontmatter_delimited AsciiCase (TAGS_ONLY none)
                    sample_now (u "n.md"))).
    reflexivity.
  - apply (proj1 (@generateFrontmatter_delimited AsciiCase DEFAULT_SETTINGS
                    sample_now (u "n.md"))).
    reflexivity.
Defined.

Module IdFacts.
Import FrontmatterEnforcer ScanFacts.

Section Insensitive.
Variable m : str -> option (nat * str).

(** For a pattern that does not look behind, the scan after the
    characters passed over is a scan of what is left. *)
Lemma replaceFrom_forget (s pre pre' : str) (k : nat) :
  replaceFrom (fun _ => m) pre k s = replaceFrom (fun _ => m) pre' k s.
Proof.
  revert pre pre' k; induction s as [|c s IH]; intros pre pre' k;
    [reflexivity|].
  cbn [replaceFrom]. destruct k as [|k]; [|apply IH].
  destruct (m (c :: s)) as [[len out]|]; f_equal; apply IH.
Qed.

Lemma replaceFrom_resume (s pre : str) (k : nat) :
  replaceFrom (fun _ => m) pre k s
  = replaceFrom (fun _ => m) [] 0 (skipn k s).
Proof.
  revert pre k; induction s as [|c s IH]; intros pre k.
  - now destruct k.
  - destruct k as [|k]; [apply replaceFrom_forget|].
    cbn [skipn replaceFrom]. apply IH.
Qed.
End Insensitive.

Lemma replaceFrom_resume_behind
      (matchAt : str -> str -> option (nat * str)) (s pre : str) (k : nat) :
  k <= length s ->
  replaceFrom matchAt pre k s
  = replaceFrom matchAt (rev (firstn k s) ++ pre) 0 (skipn k s).
Proof.
  revert pre k; induction s as [|c s IH]; intros pre k Hk.
  - cbn [length] in Hk. assert (k = 0) by lia. now subst k.
  - destruct k as [|k]; [reflexivity|].
    cbn [length] in Hk. cbn [skipn firstn rev replaceFrom].
    rewrite IH by lia. now rewrite <- app_assoc.
Qed.

Lemma dropWhile_head (p : char -> bool) (s : str) (c : char) (t : str) :
  dropWhile p s = c :: t -> p c = false.
Proof.
  induction s as [|x s IH]; [discriminate|].
  cbn [dropWhile]. destruct (p x) eqn:E; [exact IH|].
  intros H. injection H as <- _. exact E.
Qed.

(** One step of [hyphenate]. *)
Lemma hyphenate_step (c : char) (s : str) :
  hyphenate (c :: s)
  = if isIdChar c then c :: hyphenate s
    else HYPHEN :: hyphenate (dropWhile notIdChar (c :: s)).
Proof.
  unfold hyphenate, replaceAll. cbn [replaceFrom takeWhile].
  destruct (isIdChar c) eqn:Ec; cbn [negb isEmpty].
  - f_equal. apply replaceFrom_forget.
  - cbn [app]. f_equal. rewrite replaceFrom_resume. f_equal.
    cbn [length dropWhile]. unfold notIdChar. rewrite Ec. cbn [negb].
    replace (S (length (takeWhile (fun c0 => negb (isIdChar c0)) s)) - 1)
      with (length (takeWhile (fun c0 => negb (isIdChar c0)) s)) by lia.
    apply (BlankLines.skipn_takeWhile (fun c0 => negb (isIdChar c0))).
Qed.

Lemma hyphenate_nil : hyphenate [] = [].
Proof. reflexivity. Qed.

Lemma hyphenate_slug (n : nat) :
  forall s, length s <= n ->
    slug (hyphenate s) = true
    /\ (startsWith [HYPHEN] s = false ->
        (forall c t, s = c :: t -> isIdChar c = true) ->
        startsWith [HYPHEN] (hyphenate s) = false).
Proof.
  induction n as [|n IH]; intros s Hlen.
  - destruct s; [|cbn in Hlen; lia]. now split.
  - destruct s as [|c s]; [now split|].
    cbn [length] in Hlen. rewrite hyphenate_step.
    destruct (isIdChar c) eqn:Ec.
    + destruct (IH s ltac:(lia)) as [Hs _]. split.
      * cbn [slug]. now rewrite Ec, Hs.
      * intros Hh _. cbn [startsWith] in *. exact Hh.
    + split.
      * assert (Hd : length (dropWhile notIdChar (c :: s)) <= n).
        { cbn [dropWhile]. unfold notIdChar at 1. rewrite Ec. cbn [negb].
          pose proof (BlankLines.dropWhile_length notIdChar s). lia. }
        destruct (IH _ Hd) as [Hs Hhead].
        cbn [slug]. rewrite Hs, andb_true_r.
        change (isIdChar HYPHEN) with false.
        change (isHyphen HYPHEN) with true. cbn [orb andb].
        apply negb_true_iff.
        destruct (dropWhile notIdChar (c :: s)) as [|x r] eqn:Ed;
          [reflexivity|].
        apply dropWhile_head in Ed as Hx. unfold notIdChar in Hx.
        apply negb_false_iff in Hx.
        apply Hhead.
        -- cbn [startsWith]. destruct (N.eqb_spec HYPHEN x) as [<-|];
             [discriminate Hx|reflexivity].
        -- intros c0 t0 H0. now injection H0 as <- _.
      * intros _ Hid. specialize (Hid c s eq_refl). congruence.
Qed.

(** [dropTrailing] and the end of the text. *)
Lemma dropTrailing_all (p : char -> bool) (s : str) :
  forallb p s = true -> dropTrailing p s = [].
Proof.
  induction s as [|c s IH]; [reflexivity|].
  cbn [forallb dropTrailing]. intros H. apply andb_true_iff in H as [Hc Hs].
  now rewrite (IH Hs), Hc.
Qed.

Lemma dropTrailing_nil_inv (p : char -> bool) (s : str) :
  dropTrailing p s = [] -> forallb p s = true.
Proof.
  induction s as [|c s IH]; [reflexivity|].
  cbn [forallb dropTrailing].
  destruct (dropTrailing p s) eqn:E; [|discriminate].
  destruct (p c); [|discriminate]. intros _. now rewrite IH.
Qed.

Lemma dropTrailing_cons (p : char -> bool) (c : char) (s : str) :
  (p c = false \/ forallb p s = false) ->
  dropTrailing p (c :: s) = c :: dropTrailing p s.
Proof.
  intros H. cbn [dropTrailing].
  destruct (dropTrailing p s) eqn:E; [|reflexivity].
  apply dropTrailing_nil_inv in E.
  destruct H as [H|H]; [now rewrite H | congruence].
Qed.

Lemma dropWhile_nil_forallb (p : char -> bool) (s : str) :
  dropWhile p s = [] -> forallb p s = true.
Proof.
  induction s as [|c s IH]; [reflexivity|].
  cbn [dropWhile forallb]. destruct (p c); [exact IH|discriminate].
Qed.

Lemma dropWhile_cons_forallb (p : char -> bool) (s : str) (x : char) (r : str) :
  dropWhile p s = x :: r -> forallb p s = false.
Proof.
  induction s as [|c s IH]; [discriminate|].
  cbn [dropWhile forallb]. destruct (p c); [exact IH|reflexivity].
Qed.

Lemma takeWhile_all_length (p : char -> bool) (s : str) :
  dropWhile p s = [] -> length (takeWhile p s) = length s.
Proof.
  intros H. pose proof (takeWhile_length p s) as Hl.
  rewrite H in Hl. cbn [length] in Hl. lia.
Qed.

(** Behind the start of the text, [trimHyphens] removes the hyphens
    at its end and nothing else. *)
Lemma trimHyphens_behind (s pre : str) :
  pre <> [] ->
  replaceFrom
    (fun pre s' =>
       let run := takeWhile isHyphen s' in
       if isEmpty run then None
       else if isEmpty pre then Some (length run, [])
       else if isEmpty (dropWhile isHyphen s') then Some (length run, [])
       else None)
    pre 0 s
  = dropTrailing isHyphen s.
Proof.
  revert pre; induction s as [|c s IH]; intros pre Hpre; [reflexivity|].
  cbn [replaceFrom]. cbv zeta.
  destruct pre as [|p0 pre]; [contradiction|]. cbn [isEmpty].
  cbn [takeWhile dropWhile]. destruct (isHyphen c) eqn:Ec.
  - cbn [isEmpty].
    destruct (dropWhile isHyphen s) as [|x r] eqn:Ed; cbn [isEmpty].
    + cbn [app]. rewrite replaceFrom_skip.
      * symmetry. apply dropTrailing_all. cbn [forallb].
        now rewrite Ec, (dropWhile_nil_forallb _ _ Ed).
      * cbn [length]. rewrite (takeWhile_all_length _ _ Ed). lia.
    + rewrite IH by discriminate.
      symmetry. apply dropTrailing_cons. right.
      now apply (dropWhile_cons_forallb _ _ _ _ Ed).
  - cbn [isEmpty]. rewrite IH by discriminate.
    symmetry. apply dropTrailing_cons. now left.
Qed.

(** [trimHyphens] removes the hyphens at both ends. *)
Lemma trimHyphens_both_ends (s : str) :
  trimHyphens s = dropTrailing isHyphen (dropWhile isHyphen s).
Proof.
  destruct s as [|c s]; [reflexivity|].
  unfold trimHyphens, replaceAll. cbn [replaceFrom]. cbv zeta.
  cbn [isEmpty takeWhile dropWhile]. destruct (isHyphen c) eqn:Ec;
    cbn [isEmpty].
  - cbn [app length].
    replace (S (length (takeWhile isHyphen s)) - 1)
      with (length (takeWhile isHyphen s)) by lia.
    rewrite replaceFrom_resume_behind
      by (pose proof (takeWhile_length isHyphen s); lia).
    rewrite trimHyphens_behind.
    + now rewrite BlankLines.skipn_takeWhile.
    + intros E. apply app_eq_nil in E as [_ E]. discriminate E.
  - rewrite trimHyphens_behind by discriminate.
    symmetry. apply dropTrailing_cons. now left.
Qed.

Lemma slug_chars (s : str) :
  slug s = true ->
  forallb (fun c => (isIdChar c || isHyphen c)%bool) s = true.
Proof.
  induction s as [|c s IH]; [reflexivity|].
  cbn [slug forallb]. intros H. apply andb_true_iff in H as [Hc Hs].
  rewrite (IH Hs), andb_true_r.
  destruct (isIdChar c); [reflexivity|].
  cbn [orb] in *. now apply andb_true_iff in Hc as [Hc _].
Qed.

Lemma slug_no_double_hyphen (a b : str) :
  slug (a ++ [HYPHEN; HYPHEN] ++ b) = false.
Proof.
  induction a as [|x a IH]; [reflexivity|].
  cbn [app slug]. cbn [app] in IH. rewrite IH. apply andb_false_r.
Qed.

Lemma slug_dropWhile (p : char -> bool) (s : str) :
  slug s = true -> slug (dropWhile p s) = true.
Proof.
  induction s as [|c s IH]; [reflexivity|].
  intros H. cbn [dropWhile]. destruct (p c); [|exact H].
  cbn [slug] in H. apply andb_true_iff in H as [_ H]. now apply IH.
Qed.

Lemma dropTrailing_head (p : char -> bool) (s : str) (c : char) (t : str) :
  dropTrailing p s = c :: t -> exists t', s = c :: t'.
Proof.
  destruct s as [|x s]; [discriminate|]. cbn [dropTrailing].
  destruct (dropTrailing p s); [destruct (p x); [discriminate|]|];
    intros H; injection H as <- _; now exists s.
Qed.

Lemma slug_dropTrailing (p : char -> bool) (s : str) :
  slug s = true -> slug (dropTrailing p s) = true.
Proof.
  induction s as [|c s IH]; [reflexivity|].
  cbn [slug]. intros H. apply andb_true_iff in H as [Hc Hs].
  specialize (IH Hs). cbn [dropTrailing].
  destruct (dropTrailing p s) as [|x r] eqn:E.
  - destruct (p c); [reflexivity|]. cbn [slug startsWith].
    rewrite andb_true_r.
    destruct (isIdChar c); [reflexivity|]. cbn [orb] in *.
    apply andb_true_iff in Hc as [Hc _]. now rewrite Hc.
  - cbn [slug] in *. rewrite IH, andb_true_r.
    destruct (dropTrailing_head _ _ _ _ E) as [t' ->].
    exact Hc.
Qed.

Lemma dropTrailing_last (p : char -> bool) (s : str) (d : char) :
  dropTrailing p s <> [] -> p (last (dropTrailing p s) d) = false.
Proof.
  induction s as [|c s IH]; [contradiction|].
  cbn [dropTrailing]. destruct (dropTrailing p s) as [|x r] eqn:E.
  - destruct (p c) eqn:Ec; [contradiction|]. intros _. exact Ec.
  - intros _. change (last (c :: x :: r) d) with (last (x :: r) d).
    apply IH. discriminate.
Qed.

End IdFacts.

(** X14: the identifier generated from a title is made of the
    characters a-z, 0-9 and hyphens; it neither starts nor ends with a
    hyphen and holds no two hyphens in a row. *)
Theorem generateId_slug {rt : CaseConv} (title : str) :
  forallb (fun c => (FrontmatterEnforcer.isIdChar c
                     || FrontmatterEnforcer.isHyphen c)%bool)
          (FrontmatterEnforcer.generateId title) = true
  /\ hd 0%N (FrontmatterEnforcer.generateId title) <> HYPHEN
  /\ last (FrontmatterEnforcer.generateId title) 0%N <> HYPHEN
  /\ forall a b,
       FrontmatterEnforcer.generateId title <> a ++ [HYPHEN; HYPHEN] ++ b.
Proof.
  unfold FrontmatterEnforcer.generateId.
  rewrite IdFacts.trimHyphens_both_ends.
  set (h := FrontmatterEnforcer.hyphenate (toLowerCase title)).
  assert (Hh : slug h = true)
    by apply (IdFacts.hyphenate_slug (length (toLowerCase title)) _ (le_n _)).
  assert (Hs : slug (dropTrailing FrontmatterEnforcer.isHyphen
                       (dropWhile FrontmatterEnforcer.isHyphen h)) = true)
    by now apply IdFacts.slug_dropTrailing, IdFacts.slug_dropWhile.
  split; [now apply IdFacts.slug_chars|]. split; [|split].
  - destruct (dropTrailing _ _) as [|c t] eqn:E; [discriminate|].
    cbn [hd]. apply IdFacts.dropTrailing_head in E as [t' E].
    apply IdFacts.dropWhile_head in E. intros ->. discriminate E.
  - destruct (dropTrailing FrontmatterEnforcer.isHyphen
                (dropWhile FrontmatterEnforcer.isHyphen h)) as [|c t] eqn:E;
      [discriminate|].
    rewrite <- E. intros Hl.
    assert (Hne : dropTrailing FrontmatterEnforcer.isHyphen
                    (dropWhile FrontmatterEnforcer.isHyphen h) <> [])
      by (rewrite E; discriminate).
    apply (IdFacts.dropTrailing_last _ _ 0%N) in Hne.
    rewrite Hl in Hne. discriminate Hne.
  - intros a b Hab. rewrite Hab in Hs.
    now rewrite IdFacts.slug_no_double_hyphen in Hs.
Qed.

(* ===================================================================== *)
(** ** Formatting: what each step guarantees *)
(* ===================================================================== *)

Module FormattingFacts.
Import FormattingNormalizer.

Lemma tripleFree_no_triple (s : str) :
  tripleFree s = true -> forall a b, s <> a ++ [LF; LF; LF] ++ b.
Proof.
  intros H a b ->. revert H. induction a as [|x a IH].
  - cbn [app tripleFree]. rewrite !BlankLines.leadingLF_cons.
    change (isLF LF) with true. cbn iota. discriminate.
  - cbn [app tripleFree]. intros H. apply andb_true_iff in H as [_ H].
    now apply IH.
Qed.

Lemma takeWhile_isLF (s : str) :
  takeWhile isLF s = repeat LF (leadingLF s).
Proof.
  unfold leadingLF. induction s as [|c s IH]; [reflexivity|].
  cbn [takeWhile]. destruct (isLF c) eqn:E; [|reflexivity].
  apply N.eqb_eq in E. subst c. cbn [length repeat]. now rewrite <- IH.
Qed.

Lemma no_triple_tripleFree (s : str) :
  (forall a b, s <> a ++ [LF; LF; LF] ++ b) -> tripleFree s = true.
Proof.
  induction s as [|c s IH]; intros H; [reflexivity|].
  cbn [tripleFree]. apply andb_true_iff. split.
  - apply negb_true_iff, Nat.leb_gt.
    destruct (Nat.lt_ge_cases (leadingLF (c :: s)) 3) as [Hlt|Hge];
      [exact Hlt|]. exfalso.
    pose proof (ScanFacts.takeWhile_dropWhile isLF (c :: s)) as Hs.
    rewrite takeWhile_isLF in Hs.
    destruct (leadingLF (c :: s)) as [|[|[|n]]]; try lia.
    apply (H [] (repeat LF n ++ dropWhile isLF (c :: s))).
    symmetry. exact Hs.
  - apply IH. intros a b Hab. apply (H (c :: a) b). now rewrite Hab.
Qed.

(** What [ensureTrailingNewline] keeps and what it drops. *)
Lemma trailing_split (content0 : str) :
  content0
  = rev (dropWhile isWhiteSpace (rev content0))
    ++ rev (takeWhile isWhiteSpace (rev content0))
  /\ forallb isWhiteSpace (rev (takeWhile isWhiteSpace (rev content0))) = true
  /\ (rev (dropWhile isWhiteSpace (rev content0)) = []
      \/ isWhiteSpace
           (last (rev (dropWhile isWhiteSpace (rev content0))) 0%N) = false).
Proof.
  split; [|split].
  - rewrite <- rev_app_distr, ScanFacts.takeWhile_dropWhile.
    now rewrite rev_involutive.
  - apply forallb_forall. intros x Hx. apply in_rev in Hx.
    pose proof (ScanFacts.takeWhile_forallb isWhiteSpace (rev content0)) as H.
    rewrite forallb_forall in H. now apply H.
  - destruct (dropWhile isWhiteSpace (rev content0)) as [|x r] eqn:E;
      [now left|]. right.
    cbn [rev]. rewrite last_last.
    now apply (IdFacts.dropWhile_head _ _ _ _ E).
Qed.

(** One step of [normalizeLineEndings]. *)
Lemma normalizeLineEndings_step (c : char) (s : str) :
  normalizeLineEndings (c :: s)
  = if startsWith [CR; LF] (c :: s)
    then LF :: normalizeLineEndings (skipn 1 s)
    else c :: normalizeLineEndings s.
Proof.
  unfold normalizeLineEndings, replaceAll. cbn [replaceFrom].
  destruct (startsWith [CR; LF] (c :: s)).
  - cbn [app Nat.sub]. f_equal.
    apply (IdFacts.replaceFrom_resume
             (fun s' => if startsWith [CR; LF] s' then Some (2, [LF])
                        else None)).
  - f_equal.
    apply (IdFacts.replaceFrom_forget
             (fun s' => if startsWith [CR; LF] s' then Some (2, [LF])
                        else None)).
Qed.

Lemma normalizeLineEndings_counts (n : nat) :
  forall s, length s <= n ->
    count_occ N.eq_dec (normalizeLineEndings s) LF = count_occ N.eq_dec s LF
    /\ length (normalizeLineEndings s) <= length s.
Proof.
  induction n as [|n IH]; intros s Hlen.
  - destruct s; [|cbn in Hlen; lia]. now split.
  - destruct s as [|c s]; [now split|]. cbn [length] in Hlen.
    rewrite normalizeLineEndings_step.
    destruct (startsWith [CR; LF] (c :: s)) eqn:E.
    + destruct s as [|c2 s];
        [cbn [startsWith] in E; rewrite andb_false_r in E; discriminate E|].
      apply startsWith_cons_inv in E as [<- E].
      apply startsWith_cons_inv in E as [<- _].
      cbn [skipn length] in *.
      destruct (IH s ltac:(lia)) as [Hc Hl]. split.
      * cbn [count_occ]. rewrite Hc.
        destruct (N.eq_dec LF LF) as [_|Hn]; [|contradiction].
        destruct (N.eq_dec CR LF) as [Hn|_];
          [unfold CR, LF in Hn; discriminate Hn|].
        reflexivity.
      * lia.
    + destruct (IH s ltac:(lia)) as [Hc Hl]. split.
      * cbn [count_occ]. now rewrite Hc.
      * cbn [length]. lia.
Qed.

Lemma normalizeLineEndings_no_cr (s : str) :
  ~ In CR s -> normalizeLineEndings s = s.
Proof.
  induction s as [|c s IH]; intros H; [reflexivity|].
  rewrite normalizeLineEndings_step.
  destruct (startsWith [CR; LF] (c :: s)) eqn:E.
  - apply startsWith_cons_inv in E as [<- _]. exfalso. apply H. now left.
  - f_equal. apply IH. intros Hin. apply H. now right.
Qed.

End FormattingFacts.

(** X15: with the flag on, what [removeMultipleBlankLines] returns
    holds no three line feeds in a row. *)
Theorem removeMultipleBlankLines_no_triple
        (st : VaultLinterSettings) (content : str) :
  removeMultipleBlankLines st = true ->
  forall a b,
    FormattingNormalizer.removeMultipleBlankLines st content
    <> a ++ [LF; LF; LF] ++ b.
Proof.
  intros Hon. apply FormattingFacts.tripleFree_no_triple.
  unfold FormattingNormalizer.removeMultipleBlankLines.
  rewrite Hon. cbn [negb].
  apply (BlankLines.collapse_invariant (length content) content (le_n _)).
Qed.

Lemma removeMultipleBlankLines_no_triple_witness :
  removeMultipleBlankLines DEFAULT_SETTINGS = true
  /\ forall a b,
       FormattingNormalizer.removeMultipleBlankLines DEFAULT_SETTINGS
         (u "a" ++ [LF; LF; LF; LF; LF] ++ u "b")
       <> a ++ [LF; LF; LF] ++ b.
Proof.
  split; [reflexivity|].
  apply (removeMultipleBlankLines_no_triple DEFAULT_SETTINGS
           (u "a" ++ [LF; LF; LF; LF; LF] ++ u "b")).
  reflexivity.
Defined.

(** X16: content without three line feeds in a row is returned
    unchanged by [removeMultipleBlankLines]. *)
Theorem removeMultipleBlankLines_unchanged
        (st : VaultLinterSettings) (content : str) :
  (forall a b, content <> a ++ [LF; LF; LF] ++ b) ->
  FormattingNormalizer.removeMultipleBlankLines st content = content.
Proof.
  intros H. unfold FormattingNormalizer.removeMultipleBlankLines.
  destruct (negb (removeMultipleBlankLines st)); [reflexivity|].
  apply BlankLines.collapse_tripleFree.
  now apply FormattingFacts.no_triple_tripleFree.
Qed.

Lemma removeMultipleBlankLines_unchanged_witness :
  FormattingNormalizer.removeMultipleBlankLines DEFAULT_SETTINGS
    (u "a" ++ [LF; LF] ++ u "b" ++ [LF; CR; LF; LF])
  = u "a" ++ [LF; LF] ++ u "b" ++ [LF; CR; LF; LF].
Proof.
  apply (removeMultipleBlankLines_unchanged DEFAULT_SETTINGS
           (u "a" ++ [LF; LF] ++ u "b" ++ [LF; CR; LF; LF])).
  apply FormattingFacts.tripleFree_no_triple. reflexivity.
Defined.

(** X17: with the flag on, [ensureTrailingNewline] replaces the
    whitespace at the end of the content, and nothing else, by one
    line feed: what precedes that line feed is the content without its
    trailing whitespace. *)
Theorem ensureTrailingNewline_shape
        (st : VaultLinterSettings) (content : str) :
  endWithNewline st = true ->
  exists body ws,
    content = body ++ ws
    /\ forallb isWhiteSpace ws = true
    /\ (body = [] \/ isWhiteSpace (last body 0%N) = false)
    /\ FormattingNormalizer.ensureTrailingNewline st content = body ++ [LF].
Proof.
  intros Hon.
  exists (rev (dropWhile isWhiteSpace (rev content))),
         (rev (takeWhile isWhiteSpace (rev content))).
  destruct (FormattingFacts.trailing_split content) as (H1 & H2 & H3).
  repeat split; try assumption.
  unfold FormattingNormalizer.ensureTrailingNewline. now rewrite Hon.
Qed.

Lemma ensureTrailingNewline_shape_witness :
  exists body ws,
    u "text" ++ [SPACE; LF; LF] = body ++ ws
    /\ forallb isWhiteSpace ws = true
    /\ (body = [] \/ isWhiteSpace (last body 0%N) = false)
    /\ FormattingNormalizer.ensureTrailingNewline DEFAULT_SETTINGS
         (u "text" ++ [SPACE; LF; LF]) = body ++ [LF].
Proof.
  apply (ensureTrailingNewline_shape DEFAULT_SETTINGS
           (u "text" ++ [SPACE; LF; LF])).
  reflexivity.
Defined.

(** X18: [normalizeLineEndings] keeps the number of line feeds, never
    lengthens the content, and returns content without a carriage
    return unchanged. *)
Theorem normalizeLineEndings_line_feeds (content : str) :
  count_occ N.eq_dec (FormattingNormalizer.normalizeLineEndings content) LF
  = count_occ N.eq_dec content LF
  /\ length (FormattingNormalizer.normalizeLineEndings content)
     <= length content
  /\ (~ In CR content ->
      FormattingNormalizer.normalizeLineEndings content = content).
Proof.
  destruct (FormattingFacts.normalizeLineEndings_counts
              (length content) content (le_n _)) as [Hc Hl].
  repeat split; try assumption.
  apply FormattingFacts.normalizeLineEndings_no_cr.
Qed.

Lemma normalizeLineEndings_line_feeds_witness :
  FormattingNormalizer.normalizeLineEndings (u "a" ++ [LF; LF] ++ u "b")
  = u "a" ++ [LF; LF] ++ u "b".
Proof.
  apply (proj2 (proj2 (normalizeLineEndings_line_feeds
                         (u "a" ++ [LF; LF] ++ u "b")))).
  cbn. unfold CR. intuition discriminate.
Defined.

(** X19: with the three formatting flags on, what [normalize] returns
    ends with one line feed that no whitespace precedes, and holds no
    three line feeds in a row. *)
Theorem formatting_normalize_shape
        (st : VaultLinterSettings) (content : str) :
  normalizeFormatting st = true ->
  removeMultipleBlankLines st = true ->
  endWithNewline st = true ->
  (exists body,
      FormattingNormalizer.normalize st content = body ++ [LF]
      /\ (body = [] \/ isWhiteSpace (last body 0%N) = false))
  /\ forall a b,
       FormattingNormalizer.normalize st content <> a ++ [LF; LF; LF] ++ b.
Proof.
  intros Hfmt Hblank Hend.
  unfold FormattingNormalizer.normalize. rewrite Hfmt. cbn [negb]. cbv zeta.
  set (x := FormattingNormalizer.removeMultipleBlankLines st
              (FormattingNormalizer.normalizeLineEndings content)).
  assert (Hx : forall a b, x <> a ++ [LF; LF; LF] ++ b).
  { intros a b. unfold x.
    apply FormattingFacts.tripleFree_no_triple.
    unfold FormattingNormalizer.removeMultipleBlankLines.
    rewrite Hblank. cbn [negb].
    apply (BlankLines.collapse_invariant _ _ (le_n _)). }
  unfold FormattingNormalizer.ensureTrailingNewline. rewrite Hend.
  cbn [negb].
  destruct (FormattingFacts.trailing_split x) as (Hsplit & Hws & Hlast).
  set (body := rev (dropWhile isWhiteSpace (rev x))) in *.
  split; [exists body; now split|].
  intros a b Hab.
  destruct (exists_last (l := [LF; LF; LF] ++ b)) as (l' & z & Hz);
    [discriminate|].
  rewrite Hz, app_assoc in Hab. apply app_inj_tail in Hab as [Hbody _].
  destruct b as [|y b].
  - change ([LF; LF; LF] ++ []) with ([LF; LF] ++ [LF]) in Hz.
    apply app_inj_tail in Hz as [<- _].
    destruct Hlast as [Hnil|Hlast].
    + rewrite Hnil in Hbody. symmetry in Hbody.
      apply app_eq_nil in Hbody as [_ Hbody]. discriminate Hbody.
    + rewrite Hbody in Hlast.
      change (a ++ [LF; LF]) with (a ++ [LF] ++ [LF]) in Hlast.
      rewrite app_assoc, last_last in Hlast. discriminate Hlast.
  - destruct (exists_last (l := y :: b)) as (b' & z' & Hb); [discriminate|].
    rewrite Hb in Hz.
    change ([LF; LF; LF] ++ b' ++ [z']) with (LF :: LF :: LF :: b' ++ [z']) in Hz.
    change (LF :: LF :: LF :: b' ++ [z']) with (([LF; LF; LF] ++ b') ++ [z']) in Hz.
    apply app_inj_tail in Hz as [<- _].
    apply (Hx a (b' ++ rev (takeWhile isWhiteSpace (rev x)))).
    rewrite Hsplit at 1. rewrite Hbody. now rewrite <- !app_assoc.
Qed.

Lemma formatting_normalize_shape_witness :
  (exists body,
      FormattingNormalizer.normalize DEFAULT_SETTINGS
        (u "a" ++ [CR; LF; CR; LF; LF; LF] ++ u "b  ") = body ++ [LF]
      /\ (body = [] \/ isWhiteSpace (last body 0%N) = false))
  /\ forall a b,
       FormattingNormalizer.normalize DEFAULT_SETTINGS
         (u "a" ++ [CR; LF; CR; LF; LF; LF] ++ u "b  ")
       <> a ++ [LF; LF; LF] ++ b.
Proof.
  apply (formatting_normalize_shape DEFAULT_SETTINGS
           (u "a" ++ [CR; LF; CR; LF; LF; LF] ++ u "b  ")); reflexivity.
Defined.

(* ===================================================================== *)
(** ** Wikilink paths: styles *)
(* ===================================================================== *)

Module PathFacts.

Lemma dropWhile_app_stop (p : char -> bool) (l : str) (x : char) :
  p x = false -> dropWhile p (l ++ [x]) = dropWhile p l ++ [x].
Proof.
  intros Hx. induction l as [|c l IH]; cbn [app dropWhile].
  - now rewrite Hx.
  - destruct (p c); [exact IH|reflexivity].
Qed.

(** A trimmed text is trimmed already. *)
Lemma trim_idempotent (s : str) : trim (trim s) = trim s.
Proof.
  unfold trim, trimStart, trimEnd.
  set (d := dropWhile isWhiteSpace s).
  assert (Hstart : dropWhile isWhiteSpace
                     (rev (dropWhile isWhiteSpace (rev d)))
                   = rev (dropWhile isWhiteSpace (rev d))).
  { destruct d as [|x r] eqn:Ed; [reflexivity|].
    pose proof (IdFacts.dropWhile_head _ _ _ _ Ed) as Hx.
    cbn [rev]. rewrite dropWhile_app_stop by assumption.
    rewrite rev_app_distr. cbn [rev app].
    now apply dropWhile_stop. }
  rewrite Hstart, rev_involutive. now rewrite dropWhile_idempotent.
Qed.

Lemma splitBy_segments (sep : char -> bool) (s : str) :
  Forall (fun seg => existsb sep seg = false) (splitBy sep s).
Proof.
  induction s as [|c s IH]; [repeat constructor|].
  cbn [splitBy]. destruct (sep c) eqn:Ec.
  - constructor; [reflexivity|exact IH].
  - destruct (splitBy sep s) as [|seg segs]; [repeat constructor; cbn; now rewrite Ec|].
    apply Forall_cons_iff in IH as [Hseg Hsegs].
    constructor; [|exact Hsegs]. cbn [existsb]. now rewrite Ec, Hseg.
Qed.

Lemma nth_split_no_pipe (i : nat) (s : str) :
  ~ In PIPE (nth i (split PIPE s) []).
Proof.
  pose proof (splitBy_segments (N.eqb PIPE) s) as H.
  rewrite Forall_forall in H.
  destruct (nth_in_or_default i (split PIPE s) []) as [Hin | Hd]; [|rewrite Hd; tauto].
  specialize (H _ Hin). intros Hp.
  assert (E : existsb (N.eqb PIPE) (nth i (split PIPE s) []) = true).
  { apply existsb_exists. exists PIPE. split; [exact Hp|apply N.eqb_refl]. }
  unfold split in *. rewrite H in E. discriminate E.
Qed.

Lemma afterLast_without (c : char) (s : str) : ~ In c (afterLast c s).
Proof.
  induction s as [|x t IH]; [tauto|].
  cbn [afterLast]. destruct (existsb (N.eqb c) t) eqn:Et; [exact IH|].
  assert (Ht : ~ In c t).
  { intros Hin.
    assert (existsb (N.eqb c) t = true)
      by (apply existsb_exists; exists c; split;
          [exact Hin|apply N.eqb_refl]).
    congruence. }
  destruct (N.eqb_spec c x) as [Hcx | Hx]; [exact Ht|].
  intros [H|H]; [now apply Hx | now apply Ht].
Qed.

Lemma afterLast_nil (c : char) (s : str) (d : char) :
  afterLast c s = [] -> s = [] \/ last s d = c.
Proof.
  induction s as [|x t IH]; [now left|]. right.
  cbn [afterLast] in H. destruct (existsb (N.eqb c) t) eqn:Et.
  - destruct (IH H) as [Hnil | Hl]; [subst t; discriminate Et|].
    destruct t; [discriminate Et|exact Hl].
  - destruct (N.eqb_spec c x) as [Hcx | Hx]; [subst; reflexivity|discriminate H].
Qed.

End PathFacts.

(** X20: under the 'relative' and 'absolute' styles
    [normalizeWikilinkPath] is idempotent, on every inner text. *)
Theorem normalizeWikilinkPath_idempotent_unless_shortest
        (st : VaultLinterSettings) (path : str) :
  wikilinkStyle st <> shortest ->
  WikilinkInserter.normalizeWikilinkPath st
    (WikilinkInserter.normalizeWikilinkPath st path)
  = WikilinkInserter.normalizeWikilinkPath st path.
Proof.
  intros Hstyle.
  destruct (safeWikilinkInsertion st) eqn:Hon;
    [|unfold WikilinkInserter.normalizeWikilinkPath; now rewrite Hon].
  assert (Hshape :
            WikilinkInserter.normalizeWikilinkPath st path
            = trim (nth 0 (split PIPE path) [])
            \/ (trim (nth 1 (split PIPE path) []) <> []
                /\ WikilinkInserter.normalizeWikilinkPath st path
                   = trim (nth 0 (split PIPE path) []) ++ [PIPE]
                     ++ trim (nth 1 (split PIPE path) []))).
  { unfold WikilinkInserter.normalizeWikilinkPath. rewrite Hon. cbn [negb].
    cbv zeta.
    destruct (1 <? length (split PIPE path));
      [|left; destruct (wikilinkStyle st); [contradiction| |]; reflexivity].
    destruct (trim (nth 1 (split PIPE path) [])) as [|c a];
      [left|right; split; [discriminate|]];
      (destruct (wikilinkStyle st); [contradiction| |]; reflexivity). }
  assert (H0 : ~ In PIPE (trim (nth 0 (split PIPE path) []))).
  { intros H. apply WikilinkFacts.In_trim in H.
    now apply PathFacts.nth_split_no_pipe in H. }
  assert (H1 : ~ In PIPE (trim (nth 1 (split PIPE path) []))).
  { intros H. apply WikilinkFacts.In_trim in H.
    now apply PathFacts.nth_split_no_pipe in H. }
  destruct Hshape as [-> | [Hne ->]].
  - rewrite WikilinkFacts.normalizeWikilinkPath_no_pipe by assumption.
    rewrite PathFacts.trim_idempotent.
    destruct (wikilinkStyle st); [contradiction| |]; reflexivity.
  - rewrite WikilinkFacts.normalizeWikilinkPath_one_pipe by assumption.
    rewrite !PathFacts.trim_idempotent.
    destruct (trim (nth 1 (split PIPE path) [])); [contradiction|].
    cbn [isEmpty].
    destruct (wikilinkStyle st); [contradiction| |]; reflexivity.
Qed.

Lemma normalizeWikilinkPath_idempotent_unless_shortest_witness :
  WikilinkInserter.normalizeWikilinkPath (WIKILINKS_ONLY relative)
    (WikilinkInserter.normalizeWikilinkPath (WIKILINKS_ONLY relative)
       (u " a/b.md.md | x |y"))
  = WikilinkInserter.normalizeWikilinkPath (WIKILINKS_ONLY relative)
      (u " a/b.md.md | x |y").
Proof.
  apply (normalizeWikilinkPath_idempotent_unless_shortest
           (WIKILINKS_ONLY relative) (u " a/b.md.md | x |y")).
  discriminate.
Defined.

(** X21: under the 'shortest' style the link path of a text without
    alias comes out without any slash, unless the trimmed text ends
    with a slash. *)
Theorem shortest_path_has_no_slash (st : VaultLinterSettings) (path : str) :
  safeWikilinkInsertion st = true ->
  wikilinkStyle st = shortest ->
  ~ In PIPE path ->
  last (trim path) 0%N <> SLASH ->
  ~ In SLASH (WikilinkInserter.normalizeWikilinkPath st path).
Proof.
  intros Hon Hstyle Hpipe Hlast.
  rewrite WikilinkFacts.normalizeWikilinkPath_no_pipe by assumption.
  rewrite Hstyle. cbn [styledPath]. unfold shortestPath.
  intros Hin. apply WikilinkFacts.In_stripMd in Hin.
  destruct (afterLast SLASH (trim path)) as [|c r] eqn:E; cbn [isEmpty] in Hin.
  - apply (PathFacts.afterLast_nil _ _ 0%N) in E as [E|E];
      [rewrite E in Hin; exact Hin | contradiction].
  - rewrite <- E in Hin. now apply PathFacts.afterLast_without in Hin.
Qed.

Lemma shortest_path_has_no_slash_witness :
  last (trim (u " Folder/Sub/Page.md ")) 0%N <> SLASH
  /\ ~ In SLASH
        (WikilinkInserter.normalizeWikilinkPath DEFAULT_SETTINGS
           (u " Folder/Sub/Page.md ")).
Proof.
  split; [vm_compute; discriminate|].
  apply (shortest_path_has_no_slash DEFAULT_SETTINGS (u " Folder/Sub/Page.md "));
    try reflexivity.
  - cbn. unfold PIPE. intuition discriminate.
  - vm_compute. discriminate.
Defined.

(* ===================================================================== *)
(** ** The change report *)
(* ===================================================================== *)

Module ChangeReportFacts.
Import Report ChangeReporter.

Lemma str_eqb_refl (s : str) : str_eqb s s = true.
Proof.
  induction s as [|c s IH]; [reflexivity|].
  cbn [str_eqb]. now rewrite N.eqb_refl, IH.
Qed.

Lemma str_eqb_eq (a b : str) : str_eqb a b = true -> a = b.
Proof.
  revert b; induction a as [|x a IH]; intros [|y b] H;
    try reflexivity; try discriminate.
  cbn [str_eqb] in H. apply andb_true_iff in H as [Hxy H].
  apply N.eqb_eq in Hxy. subst y. now rewrite (IH _ H).
Qed.

Lemma ChangeType_eqb_eq (a b : ChangeType) :
  ChangeType_eqb a b = true <-> a = b.
Proof. destruct a, b; cbn; split; congruence. Qed.

Lemma list_sum_cons (x : nat) (l : list nat) :
  list_sum (x :: l) = x + list_sum l.
Proof. reflexivity. Qed.

Lemma bump_sum (m : TypeMap) (k : ChangeType) :
  list_sum (map snd (bump m k)) = S (list_sum (map snd m)).
Proof.
  unfold bump. induction m as [|[k' v] m IH]; [reflexivity|].
  cbn [mapGet mapSet]. destruct (ChangeType_eqb k k') eqn:E.
  - cbn [map snd]. rewrite !list_sum_cons. lia.
  - cbn [map snd]. rewrite !list_sum_cons, IH. lia.
Qed.

Lemma bump_keys (m : TypeMap) (k : ChangeType) (x : ChangeType) :
  In x (map fst (bump m k)) <-> x = k \/ In x (map fst m).
Proof.
  unfold bump. induction m as [|[k' v] m IH].
  - cbn. intuition.
  - cbn [mapGet mapSet]. destruct (ChangeType_eqb k k') eqn:E.
    + apply ChangeType_eqb_eq in E. subst k'. cbn. intuition.
    + cbn [map fst In]. rewrite IH. intuition.
Qed.

Lemma bump_nodup (m : TypeMap) (k : ChangeType) :
  NoDup (map fst m) -> NoDup (map fst (bump m k)).
Proof.
  induction m as [|[k' v] m IH]; intros Hm.
  - cbn. constructor; [tauto|constructor].
  - pose proof (bump_keys m k) as Hkeys. unfold bump in *.
    cbn [mapGet mapSet]. destruct (ChangeType_eqb k k') eqn:E.
    + apply ChangeType_eqb_eq in E. subst k'. exact Hm.
    + cbn [map fst] in *. apply NoDup_cons_iff in Hm as [Hk' Hm].
      constructor; [|now apply IH].
      intros Hin. apply Hkeys in Hin as [->|Hin]; [|contradiction].
      assert (ChangeType_eqb k k = true) by now apply ChangeType_eqb_eq.
      congruence.
Qed.

Lemma bump_positive (m : TypeMap) (k : ChangeType) :
  Forall (fun e => 0 < snd e) m -> Forall (fun e => 0 < snd e) (bump m k).
Proof.
  unfold bump. induction m as [|[k' v] m IH]; intros Hm.
  - cbn. constructor; [cbn; lia|constructor].
  - cbn [mapGet mapSet]. apply Forall_cons_iff in Hm as [Hv Hm].
    destruct (ChangeType_eqb k k').
    + constructor; [cbn; lia|exact Hm].
    + constructor; [exact Hv|now apply IH].
Qed.

Lemma tally_changes (cs : list Change) (m : TypeMap) (n : nat) :
  tallyOk m n ->
  tallyOk (fold_left (fun m change => bump m (type change)) cs m)
          (n + length cs).
Proof.
  revert m n; induction cs as [|c cs IH]; intros m n Hm.
  - cbn. now rewrite Nat.add_0_r.
  - cbn [fold_left length]. replace (n + S (length cs)) with (S n + length cs)
      by lia.
    apply IH. destruct Hm as (Hs & Hn & Hp). repeat split.
    + rewrite bump_sum. now rewrite Hs.
    + now apply bump_nodup.
    + now apply bump_positive.
Qed.

Lemma tally_files (files : list ChangeReport) (m : TypeMap) (n : nat) :
  tallyOk m n ->
  tallyOk
    (fold_left
       (fun m report =>
          fold_left (fun m change => bump m (type change)) (changes report) m)
       files m)
    (n + totalChanges files).
Proof.
  revert m n; induction files as [|r files IH]; intros m n Hm.
  - cbn. now rewrite Nat.add_0_r.
  - cbn [fold_left]. unfold totalChanges. cbn [map].
    rewrite list_sum_cons, Nat.add_assoc.
    apply IH. now apply tally_changes.
Qed.

End ChangeReportFacts.

(** X22: a change report carries the path, the name and the two
    contents it was given, and lists its changes in a fixed order:
    frontmatter, formatting, tags, wikilinks, each kind at most once
    and the two frontmatter kinds never together. *)
Theorem generateChangeReport_ordered
        (filePath fileName originalContent normalizedContent : str) :
  Report.filePath
    (ChangeReporter.generateChangeReport
       filePath fileName originalContent normalizedContent) = filePath
  /\ Report.fileName
       (ChangeReporter.generateChangeReport
          filePath fileName originalContent normalizedContent) = fileName
  /\ Report.originalContent
       (ChangeReporter.generateChangeReport
          filePath fileName originalContent normalizedContent)
     = originalContent
  /\ Report.normalizedContent
       (ChangeReporter.generateChangeReport
          filePath fileName originalContent normalizedContent)
     = normalizedContent
  /\ StronglySorted
       (fun a b => changeRank a < changeRank b)
       (map Report.type
            (Report.changes
               (ChangeReporter.generateChangeReport
                  filePath fileName originalContent normalizedContent))).
Proof.
  unfold ChangeReporter.generateChangeReport.
  destruct (str_eqb originalContent normalizedContent);
    [repeat split; constructor|].
  cbv zeta.
  repeat match goal with
         | |- context [if ?b then _ else _] => destruct b
         end;
    repeat split; cbn; repeat constructor; cbn; lia.
Qed.

(** X23: 'frontmatter-added' is reported exactly when the original
    content has no frontmatter and the normalized content has. *)
Theorem frontmatter_added_reported
        (filePath fileName originalContent normalizedContent : str) :
  In Report.frontmatter_added
     (map Report.type
          (Report.changes
             (ChangeReporter.generateChangeReport
                filePath fileName originalContent normalizedContent)))
  <-> FrontmatterEnforcer.hasFrontmatter originalContent = false
      /\ FrontmatterEnforcer.hasFrontmatter normalizedContent = true.
Proof.
  unfold ChangeReporter.generateChangeReport,
    FrontmatterEnforcer.hasFrontmatter.
  destruct (str_eqb originalContent normalizedContent) eqn:Eq.
  - apply ChangeReportFacts.str_eqb_eq in Eq. subst normalizedContent.
    cbn. split; [tauto|]. intros [H1 H2]. congruence.
  - cbv zeta.
    destruct (startsWith (u "---") (trimStart originalContent));
      destruct (startsWith (u "---") (trimStart normalizedContent));
      cbn [negb andb];
      repeat match goal with
             | |- context [if ?b then _ else _] => destruct b
             end;
      cbn; intuition congruence.
Qed.

(** A report on two identical contents has no change, and it is
    rendered as the message that nothing had to be changed. *)
Theorem generateChangeReport_identical (filePath fileName content : str) :
  Report.changes
    (ChangeReporter.generateChangeReport filePath fileName content content)
  = []
  /\ ChangeReporter.formatReportAsMarkdown
       (ChangeReporter.generateChangeReport filePath fileName content content)
     = u "# Linting Report: " ++ fileName ++ [LF; LF]
       ++ u "**File Path**: `" ++ filePath ++ u "`" ++ [LF; LF]
       ++ [ChangeReporter.CHECK_MARK]
       ++ u " No changes needed - file already conforms to linting rules"
       ++ [LF; LF].
Proof.
  unfold ChangeReporter.generateChangeReport.
  rewrite ChangeReportFacts.str_eqb_refl. split; [reflexivity|].
  unfold ChangeReporter.formatReportAsMarkdown. cbn [Report.changes length
    Nat.eqb Report.fileName Report.filePath].
  now rewrite <- !app_assoc.
Qed.

(** X24: the tally of the vault report counts every change once: its
    counts add up to the number of changes in the reports, no kind
    appears twice and no count is zero. *)
Theorem countChangeTypes_total (reports : list Report.ChangeReport) :
  list_sum (map snd (Report.countChangeTypes reports)) = totalChanges reports
  /\ NoDup (map fst (Report.countChangeTypes reports))
  /\ Forall (fun e => 0 < snd e) (Report.countChangeTypes reports).
Proof.
  apply (ChangeReportFacts.tally_files reports [] 0).
  repeat split; constructor.
Qed.

(* ===================================================================== *)
(** ** The header through the pipeline *)
(* ===================================================================== *)

Module HeaderFacts.

Section Insensitive.
Variable m : str -> option (nat * str).

(** Characters at which the pattern never matches are kept. *)
Lemma replaceAll_keeps_prefix (p s : str) :
  (forall c t, In c p -> m (c :: t) = None) ->
  replaceAll (fun _ => m) (p ++ s) = p ++ replaceAll (fun _ => m) s.
Proof.
  unfold replaceAll. induction p as [|c p IH]; intros Hp; [reflexivity|].
  cbn [app replaceFrom]. rewrite (Hp c (p ++ s)) by now left.
  f_equal. rewrite (IdFacts.replaceFrom_forget m _ [c] []).
  apply IH. intros c' t Hin. apply Hp. now right.
Qed.
End Insensitive.

Lemma keeps_hyphens (f : str -> str) (x : str) :
  (forall s, f (u "---" ++ s) = u "---" ++ f s) ->
  startsWith (u "---") x = true -> startsWith (u "---") (f x) = true.
Proof.
  intros Hf Hx. apply startsWith_true_split in Hx.
  rewrite Hx, Hf. apply startsWith_refl_app.
Qed.

Lemma in_hyphens (c : char) : In c (u "---") -> c = HYPHEN.
Proof. cbn. intuition. Qed.

Lemma formatting_keeps_header (st : VaultLinterSettings) (x : str) :
  startsWith (u "---") x = true ->
  startsWith (u "---") (FormattingNormalizer.normalize st x) = true.
Proof.
  intros Hx. unfold FormattingNormalizer.normalize.
  destruct (negb (normalizeFormatting st)); [exact Hx|]. cbv zeta.
  assert (H1 : startsWith (u "---")
                 (FormattingNormalizer.normalizeLineEndings x) = true).
  { apply startsWith_true_split in Hx. rewrite Hx.
    unfold FormattingNormalizer.normalizeLineEndings.
    rewrite (replaceAll_keeps_prefix
               (fun s' => if startsWith [CR; LF] s' then Some (2, [LF])
                          else None)).
    - apply startsWith_refl_app.
    - intros c t Hc. apply in_hyphens in Hc. now subst c. }
  assert (H2 : startsWith (u "---")
                 (FormattingNormalizer.removeMultipleBlankLines st
                    (FormattingNormalizer.normalizeLineEndings x)) = true).
  { unfold FormattingNormalizer.removeMultipleBlankLines.
    destruct (negb (removeMultipleBlankLines st)); [exact H1|].
    apply startsWith_true_split in H1. rewrite H1.
    rewrite (replaceAll_keeps_prefix
               (fun s' =>
                  let run := takeWhile FormattingNormalizer.isLF s' in
                  if 3 <=? length run then Some (length run, [LF; LF])
                  else None)).
    - apply startsWith_refl_app.
    - intros c t Hc. apply in_hyphens in Hc. now subst c. }
  unfold FormattingNormalizer.ensureTrailingNewline.
  destruct (negb (endWithNewline st)); [exact H2|].
  apply startsWith_true_split in H2. rewrite H2.
  apply startsWith_app_r.
  change (u "---" ++ ?y) with (HYPHEN :: HYPHEN :: HYPHEN :: y).
  cbn [rev]. rewrite !PathFacts.dropWhile_app_stop by reflexivity.
  rewrite !rev_app_distr. reflexivity.
Qed.

Lemma tags_keep_header {rt : CaseConv} (st : VaultLinterSettings) (x : str) :
  startsWith (u "---") x = true ->
  startsWith (u "---") (TagRules.enforce st x) = true.
Proof.
  intros Hx. unfold TagRules.enforce.
  destruct (negb (enforceTagRules st)); [exact Hx|].
  apply startsWith_true_split in Hx. rewrite Hx.
  rewrite (replaceAll_keeps_prefix
             (fun s' =>
                match TagRules.matchTag s' with
                | Some (tag0, len) =>
                    Some (len, HASH :: TagRules.normalizeTag st tag0)
                | None => None
                end)).
  - apply startsWith_refl_app.
  - intros c t Hc. apply in_hyphens in Hc. now subst c.
Qed.

Lemma wikilinks_keep_header (st : VaultLinterSettings) (x : str) :
  startsWith (u "---") x = true ->
  startsWith (u "---") (WikilinkInserter.normalize st x) = true.
Proof.
  intros Hx. unfold WikilinkInserter.normalize.
  destruct (negb (safeWikilinkInsertion st)); [exact Hx|].
  apply startsWith_true_split in Hx. rewrite Hx.
  rewrite (replaceAll_keeps_prefix
             (fun s' =>
                match WikilinkInserter.matchWikilink s' with
                | Some (path, len) =>
                    Some (len,
                          u "[[" ++ WikilinkInserter.normalizeWikilinkPath st path
                            ++ u "]]")
                | None => None
                end)).
  - apply startsWith_refl_app.
  - intros c t Hc. apply in_hyphens in Hc. subst c. now destruct t.
Qed.

Lemma pipeline_keeps_header {rt : CaseConv}
      (st : VaultLinterSettings) (now content fileName : str) :
  startsWith (u "---")
    (FrontmatterEnforcer.enforce st now content fileName) = true ->
  startsWith (u "---")
    (NormalizationPipeline.normalize st now content fileName) = true.
Proof.
  intros H. unfold NormalizationPipeline.normalize.
  now apply wikilinks_keep_header, tags_keep_header, formatting_keeps_header.
Qed.

Lemma inserted_header {rt : CaseConv}
      (st : VaultLinterSettings) (now content fileName : str) :
  enforceFrontmatter st = true ->
  FrontmatterEnforcer.hasFrontmatter content = false ->
  startsWith (u "---")
    (NormalizationPipeline.normalize st now content fileName) = true.
Proof.
  intros He Hno. apply pipeline_keeps_header.
  unfold FrontmatterEnforcer.enforce. rewrite He, Hno. cbn [negb].
  apply startsWith_app_r. now apply generateFrontmatter_startsWith.
Qed.

End HeaderFacts.

(** X25: with frontmatter enforcement on, the pipeline turns content
    that has no frontmatter into content that starts with the
    delimiter, whatever the other rules do. *)
Theorem pipeline_output_has_frontmatter {rt : CaseConv}
        (st : VaultLinterSettings) (now content fileName : str) :
  enforceFrontmatter st = true ->
  FrontmatterEnforcer.hasFrontmatter content = false ->
  startsWith (u "---")
    (NormalizationPipeline.normalize st now content fileName) = true
  /\ FrontmatterEnforcer.hasFrontmatter
       (NormalizationPipeline.normalize st now content fileName) = true.
Proof.
  intros He Hno.
  pose proof (HeaderFacts.inserted_header st now content fileName He Hno) as H.
  split; [exact H|now apply hasFrontmatter_startsWith].
Qed.

Lemma pipeline_output_has_frontmatter_witness :
  startsWith (u "---")
    (NormalizationPipeline.normalize (rt := AsciiCase) DEFAULT_SETTINGS
       sample_now ([LF; LF] ++ u "# Title" ++ [CR; LF] ++ u "#Tag [[a/b]]")
       (u "n.md")) = true
  /\ FrontmatterEnforcer.hasFrontmatter
       (NormalizationPipeline.normalize (rt := AsciiCase) DEFAULT_SETTINGS
          sample_now ([LF; LF] ++ u "# Title" ++ [CR; LF] ++ u "#Tag [[a/b]]")
          (u "n.md")) = true.
Proof.
  apply (@pipeline_output_has_frontmatter AsciiCase DEFAULT_SETTINGS
           sample_now ([LF; LF] ++ u "# Title" ++ [CR; LF] ++ u "#Tag [[a/b]]")
           (u "n.md")); reflexivity.
Defined.

(** X26: with frontmatter enforcement on, the report on content that
    has no frontmatter and on what the pipeline makes of it starts
    with the change 'frontmatter-added', at line 1. *)
Theorem report_starts_with_frontmatter_added {rt : CaseConv}
        (st : VaultLinterSettings) (now content filePath fileName : str) :
  enforceFrontmatter st = true ->
  FrontmatterEnforcer.hasFrontmatter content = false ->
  exists rest,
    Report.changes
      (ChangeReporter.generateChangeReport filePath fileName content
         (NormalizationPipeline.normalize st now content fileName))
    = {| Report.type := Report.frontmatter_added;
         Report.description := u "Added frontmatter";
         Report.lineNumber := Some 1 |} :: rest.
Proof.
  intros He Hno.
  pose proof (HeaderFacts.inserted_header st now content fileName He Hno) as H.
  pose proof (hasFrontmatter_startsWith _ H) as Hhas.
  unfold FrontmatterEnforcer.hasFrontmatter in Hno, Hhas.
  unfold ChangeReporter.generateChangeReport.
  destruct (str_eqb content
              (NormalizationPipeline.normalize st now content fileName)) eqn:Eq.
  - apply ChangeReportFacts.str_eqb_eq in Eq. rewrite <- Eq in Hhas.
    congruence.
  - cbv zeta. rewrite Hno, Hhas. cbn [negb andb app].
    repeat match goal with
           | |- context [if ?b then _ else _] => destruct b
           end;
      cbn [app]; eexists; reflexivity.
Qed.

Lemma report_starts_with_frontmatter_added_witness :
  exists rest,
    Report.changes
      (ChangeReporter.generateChangeReport (u "notes/n.md") (u "n.md")
         (u "text #Tag")
         (NormalizationPipeline.normalize (rt := AsciiCase) DEFAULT_SETTINGS
            sample_now (u "text #Tag") (u "n.md")))
    = {| Report.type := Report.frontmatter_added;
         Report.description := u "Added frontmatter";
         Report.lineNumber := Some 1 |} :: rest.
Proof.
  apply (@report_starts_with_frontmatter_added AsciiCase DEFAULT_SETTINGS
           sample_now (u "text #Tag") (u "notes/n.md") (u "n.md"));
    reflexivity.
Defined.

(** X27: with every rule off the dry run of the vault reports every
    file it reads as unchanged, under its own path and in the order of
    the files. *)
Theorem dryRun_all_disabled {rt : CaseConv}
        (st : VaultLinterSettings) (now : str)
        (files : list VaultLinterPlugin.VaultFile) :
  enforceFrontmatter st = false ->
  normalizeFormatting st = false ->
  enforceTagRules st = false ->
  safeWikilinkInsertion st = false ->
  Forall (fun r => Report.changes r = [])
         (VaultLinterPlugin.dryRunReports st now files)
  /\ map Report.filePath (VaultLinterPlugin.dryRunReports st now files)
     = map VaultLinterPlugin.path files.
Proof.
  intros Hfm Hfmt Htag Hwl. unfold VaultLinterPlugin.dryRunReports. split.
  - apply Forall_map, Forall_forall. intros file _.
    unfold VaultLinterPlugin.lintContent, NormalizationPipeline.normalize,
      FrontmatterEnforcer.enforce, FormattingNormalizer.normalize,
      TagRules.enforce, WikilinkInserter.normalize.
    rewrite Hfm, Hfmt, Htag, Hwl. cbn [negb].
    unfold ChangeReporter.generateChangeReport.
    now rewrite ChangeReportFacts.str_eqb_refl.
  - rewrite map_map. apply map_ext. intros file.
    unfold ChangeReporter.generateChangeReport.
    now destruct (str_eqb _ _).
Qed.

Lemma dryRun_all_disabled_witness :
  Forall (fun r => Report.changes r = [])
         (VaultLinterPlugin.dryRunReports (rt := AsciiCase) ALL_DISABLED
            sample_now
            [ {| VaultLinterPlugin.path := u "a.md";
                 VaultLinterPlugin.name := u "a.md";
                 VaultLinterPlugin.fileContent := u "#Tag [[x/y.md]]  " |} ])
  /\ map Report.filePath
         (VaultLinterPlugin.dryRunReports (rt := AsciiCase) ALL_DISABLED
            sample_now
            [ {| VaultLinterPlugin.path := u "a.md";
                 VaultLinterPlugin.name := u "a.md";
                 VaultLinterPlugin.fileContent := u "#Tag [[x/y.md]]  " |} ])
     = [u "a.md"].
Proof.
  apply (@dryRun_all_disabled AsciiCase ALL_DISABLED sample_now
           [ {| VaultLinterPlugin.path := u "a.md";
                VaultLinterPlugin.name := u "a.md";
                VaultLinterPlugin.fileContent := u "#Tag [[x/y.md]]  " |} ]);
    reflexivity.
Defined.

(** X28: the time stamp in the name of the vault report file has the
    length of the ISO time stamp and holds neither colon nor dot. *)
Theorem fileTimestamp_safe (now : str) :
  length (VaultLinterPlugin.fileTimestamp now) = length now
  /\ ~ In 58%N (VaultLinterPlugin.fileTimestamp now)
  /\ ~ In 46%N (VaultLinterPlugin.fileTimestamp now).
Proof.
  unfold VaultLinterPlugin.fileTimestamp.
  split; [apply length_map|].
  split; intros Hin; apply in_map_iff in Hin as [c [Hc _]];
    destruct (N.eqb c 58%N) eqn:E58; destruct (N.eqb c 46%N) eqn:E46;
    cbn [orb] in Hc; try discriminate Hc;
    apply N.eqb_neq in E58, E46; congruence.
Qed.

(* ===================================================================== *)
(** ** Every wikilink the rule meets *)
(* ===================================================================== *)

Module LinkFacts.
Import Scan.

Section AtRange.
Variable kind : RangeType.
Variable matchLen : str -> option nat.
Variable m : str -> option (nat * str).
Hypothesis same_pattern : forall s, matchLen s = option_map fst (m s).
Hypothesis match_bounds :
  forall s len out, m s = Some (len, out) -> 1 <= len <= length s.
(** A match does not depend on what follows it. *)
Hypothesis match_cut :
  forall s k len out,
    m s = Some (len, out) -> len <= k -> m (firstn k s) = Some (len, out).
Hypothesis no_match_cut :
  forall s k, m s = None -> m (firstn k s) = None.



End AtRange.




End LinkFacts.

(** Two links with a blank alias in one content: both are rewritten. *)
Example normalize_two_blank_aliases :
  WikilinkInserter.normalize DEFAULT_SETTINGS (u "x [[A|]] y [[B| ]]")
  = u "x [[A]] y [[B]]".
Proof. vm_compute. reflexivity. Qed.


